(** * Auraze chat client: the state-reconciliation core

    A shallow embedding of [src/services/gunService.ts] (the Gun service
    layer: [getPrivateRoomId], [auth.addFriend], [sendMessage],
    [sendPrivateMessage]) and of the [App] component of [src/App.tsx]
    (the listeners attached in its effect and its command handlers).

    Conventions.
    - A JavaScript string is a [string]; its characters stand for code units.
    - The [time] of a value that comes from the graph is [Some] integer
      (milliseconds) when the value has a numeric time and [None] when it
      has none; the time of a payload the program writes is an integer.
    - The Gun graph and the React state of [App] form one explicit
      [AppState]; every callback and handler is a function on it.
    - [Record<string, Message[]>] is a [gmap string (list Message)]. *)

From Stdlib Require Import ZArith Ascii String List Sorted Lia.
From stdpp Require Import base decidable option list gmap strings.

Local Open Scope string_scope.
Local Open Scope Z_scope.

(** ** JavaScript built-ins used by the sources *)
Module Js.

(** One insertion step of a stable sort under a comparator [cmp] with the
    contract of [Array.prototype.sort]: a result [<= 0] keeps [x] ahead. *)
Fixpoint sort_insert {A : Type} (cmp : A -> A -> Z) (x : A) (l : list A)
  : list A :=
  match l with
  | [] => [x]
  | y :: l' => if cmp x y <=? 0 then x :: y :: l' else y :: sort_insert cmp x l'
  end.

(** [arr.sort(cmp)]: stable (ECMAScript 2019), so its result is determined
    by the comparator whenever that is a consistent ordering. *)
Definition Array_sort {A : Type} (cmp : A -> A -> Z) (l : list A) : list A :=
  foldr (sort_insert cmp) [] l.

(** The comparator of [arr.sort()] with no argument, on strings: code-unit
    lexicographic order. *)
Definition default_compare (x y : string) : Z :=
  match String.compare x y with
  | Lt => -1
  | Eq => 0
  | Gt => 1
  end.

(** [arr.join(sep)] *)
Fixpoint Array_join (sep : string) (l : list string) : string :=
  match l with
  | [] => ""
  | [x] => x
  | x :: l' => x ++ sep ++ Array_join sep l'
  end.

(** [arr.find(p)]: the first element satisfying [p], or [undefined]. *)
Definition Array_find {A : Type} (p : A -> bool) (l : list A) : option A :=
  List.find p l.

(** Truthiness of a string: every string but the empty one. *)
Definition truthy (s : string) : bool :=
  match s with
  | EmptyString => false
  | String _ _ => true
  end.

(** White space and line terminators among the code units below 256. *)
Definition is_white_space (c : ascii) : bool :=
  let n := nat_of_ascii c in
  ((9 <=? n)%nat && (n <=? 13)%nat) || (n =? 32)%nat || (n =? 160)%nat.

Fixpoint trim_start (s : string) : string :=
  match s with
  | EmptyString => EmptyString
  | String c s' => if is_white_space c then trim_start s' else s
  end.

Fixpoint string_rev_onto (s acc : string) : string :=
  match s with
  | EmptyString => acc
  | String c s' => string_rev_onto s' (String c acc)
  end.

Definition string_rev (s : string) : string := string_rev_onto s EmptyString.

(** [s.trim()] *)
Definition String_trim (s : string) : string :=
  string_rev (trim_start (string_rev (trim_start s))).

End Js.

(** ** Data model *)

(** [interface Message] of [App.tsx]. *)
Record Message := mkMessage {
  m_id : string;
  m_msg : string;
  m_user : string;
  m_pub : string;
  m_time : option Z
}.

(** [interface Friend] of [App.tsx]. *)
Record Friend := mkFriend {
  f_pub : string;
  f_alias : string;
  f_status : string;
  f_online : option bool
}.

(** The value of a message event as it comes from the graph ([data: any]):
    the text field may be missing, and so may a numeric time. *)
Record MessageData := mkMessageData {
  md_msg : option string;
  md_user : string;
  md_pub : string;
  md_time : option Z
}.

(** The value of a friend-stream event; it carries a [pub] field of its own. *)
Record FriendData := mkFriendData {
  fd_pub : string;
  fd_alias : string;
  fd_status : string;
  fd_online : option bool
}.

(** [gunUser.is]: the identity of the live session. *)
Record Identity := mkIdentity {
  is_pub : string;
  is_alias : string
}.

(** [messageData], the payload of an outgoing message. *)
Record Payload := mkPayload {
  p_msg : string;
  p_user : string;
  p_pub : string;
  p_time : Z
}.

(** A write issued to the graph: [gun.get(..)...set(messageData)] on a path,
    and the two writes below the session's own [user] node. *)
Inductive Write :=
| GunSet (path : list string) (p : Payload)
| UserPutFriend (key : string) (r : FriendData)
| UserPutLastRead (chatId : string) (timestamp : Z).

(** A callback registered with [.on(...)]. *)
Inductive Listener :=
| OnAlias
| OnGlobalChat
| OnFriends
| OnPrivateRoom (roomId : string).

#[global] Instance Listener_eq_dec : EqDecision Listener.
Proof. solve_decision. Defined.

(** The graph side ([gun_*]) and the React state of [App]. *)
Record AppState := mkAppState {
  gun_user_is : option Identity;
  gun_listeners : list Listener;
  gun_writes : list Write;
  isAuthenticated : bool;
  currentUser : string;
  currentPub : string;
  isCheckingAuth : bool;
  globalMessages : list Message;
  privateMessages : gmap string (list Message);
  friends : list Friend;
  selectedFriend : option Friend;
  showAddFriend : bool;
  friendIdInput : string;
  friendAliasInput : string
}.

Definition with_user_is (u : option Identity) (st : AppState) : AppState :=
  mkAppState u (gun_listeners st) (gun_writes st) (isAuthenticated st)
    (currentUser st) (currentPub st) (isCheckingAuth st) (globalMessages st)
    (privateMessages st) (friends st) (selectedFriend st) (showAddFriend st)
    (friendIdInput st) (friendAliasInput st).

Definition with_listeners (ls : list Listener) (st : AppState) : AppState :=
  mkAppState (gun_user_is st) ls (gun_writes st) (isAuthenticated st)
    (currentUser st) (currentPub st) (isCheckingAuth st) (globalMessages st)
    (privateMessages st) (friends st) (selectedFriend st) (showAddFriend st)
    (friendIdInput st) (friendAliasInput st).

Definition with_writes (ws : list Write) (st : AppState) : AppState :=
  mkAppState (gun_user_is st) (gun_listeners st) ws (isAuthenticated st)
    (currentUser st) (currentPub st) (isCheckingAuth st) (globalMessages st)
    (privateMessages st) (friends st) (selectedFriend st) (showAddFriend st)
    (friendIdInput st) (friendAliasInput st).

Definition setIsAuthenticated (b : bool) (st : AppState) : AppState :=
  mkAppState (gun_user_is st) (gun_listeners st) (gun_writes st) b
    (currentUser st) (currentPub st) (isCheckingAuth st) (globalMessages st)
    (privateMessages st) (friends st) (selectedFriend st) (showAddFriend st)
    (friendIdInput st) (friendAliasInput st).

Definition setCurrentUser (s : string) (st : AppState) : AppState :=
  mkAppState (gun_user_is st) (gun_listeners st) (gun_writes st)
    (isAuthenticated st) s (currentPub st) (isCheckingAuth st)
    (globalMessages st) (privateMessages st) (friends st) (selectedFriend st)
    (showAddFriend st) (friendIdInput st) (friendAliasInput st).

Definition setCurrentPub (s : string) (st : AppState) : AppState :=
  mkAppState (gun_user_is st) (gun_listeners st) (gun_writes st)
    (isAuthenticated st) (currentUser st) s (isCheckingAuth st)
    (globalMessages st) (privateMessages st) (friends st) (selectedFriend st)
    (showAddFriend st) (friendIdInput st) (friendAliasInput st).

Definition setIsCheckingAuth (b : bool) (st : AppState) : AppState :=
  mkAppState (gun_user_is st) (gun_listeners st) (gun_writes st)
    (isAuthenticated st) (currentUser st) (currentPub st) b
    (globalMessages st) (privateMessages st) (friends st) (selectedFriend st)
    (showAddFriend st) (friendIdInput st) (friendAliasInput st).

(** [setGlobalMessages(prev => f(prev))] *)
Definition setGlobalMessages (f : list Message -> list Message)
  (st : AppState) : AppState :=
  mkAppState (gun_user_is st) (gun_listeners st) (gun_writes st)
    (isAuthenticated st) (currentUser st) (currentPub st) (isCheckingAuth st)
    (f (globalMessages st)) (privateMessages st) (friends st)
    (selectedFriend st) (showAddFriend st) (friendIdInput st)
    (friendAliasInput st).

(** [setPrivateMessages(prev => f(prev))] *)
Definition setPrivateMessages
  (f : gmap string (list Message) -> gmap string (list Message))
  (st : AppState) : AppState :=
  mkAppState (gun_user_is st) (gun_listeners st) (gun_writes st)
    (isAuthenticated st) (currentUser st) (currentPub st) (isCheckingAuth st)
    (globalMessages st) (f (privateMessages st)) (friends st)
    (selectedFriend st) (showAddFriend st) (friendIdInput st)
    (friendAliasInput st).

(** [setFriends(prev => f(prev))] *)
Definition setFriends (f : list Friend -> list Friend) (st : AppState)
  : AppState :=
  mkAppState (gun_user_is st) (gun_listeners st) (gun_writes st)
    (isAuthenticated st) (currentUser st) (currentPub st) (isCheckingAuth st)
    (globalMessages st) (privateMessages st) (f (friends st))
    (selectedFriend st) (showAddFriend st) (friendIdInput st)
    (friendAliasInput st).

Definition setSelectedFriend (f : option Friend) (st : AppState) : AppState :=
  mkAppState (gun_user_is st) (gun_listeners st) (gun_writes st)
    (isAuthenticated st) (currentUser st) (currentPub st) (isCheckingAuth st)
    (globalMessages st) (privateMessages st) (friends st) f
    (showAddFriend st) (friendIdInput st) (friendAliasInput st).

Definition setShowAddFriend (b : bool) (st : AppState) : AppState :=
  mkAppState (gun_user_is st) (gun_listeners st) (gun_writes st)
    (isAuthenticated st) (currentUser st) (currentPub st) (isCheckingAuth st)
    (globalMessages st) (privateMessages st) (friends st) (selectedFriend st)
    b (friendIdInput st) (friendAliasInput st).

Definition setFriendIdInput (s : string) (st : AppState) : AppState :=
  mkAppState (gun_user_is st) (gun_listeners st) (gun_writes st)
    (isAuthenticated st) (currentUser st) (currentPub st) (isCheckingAuth st)
    (globalMessages st) (privateMessages st) (friends st) (selectedFriend st)
    (showAddFriend st) s (friendAliasInput st).

Definition setFriendAliasInput (s : string) (st : AppState) : AppState :=
  mkAppState (gun_user_is st) (gun_listeners st) (gun_writes st)
    (isAuthenticated st) (currentUser st) (currentPub st) (isCheckingAuth st)
    (globalMessages st) (privateMessages st) (friends st) (selectedFriend st)
    (showAddFriend st) (friendIdInput st) s.

(** [x.on(cb)]: one more callback on the path; nothing is replaced. *)
Definition attach (l : Listener) (st : AppState) : AppState :=
  with_listeners (gun_listeners st ++ [l]) st.

(** A write reaches the graph. *)
Definition emit (w : Write) (st : AppState) : AppState :=
  with_writes (gun_writes st ++ [w]) st.

(** ** [services/gunService.ts] *)
Module GunService.

Definition globalChatPath : list string := ["ma-mesh-global-chat-v1"].

Definition privateChatPath (roomId : string) : list string :=
  ["ma-mesh-private-chats"; roomId].

(** [[pub1, pub2].sort().join('_')] *)
Definition getPrivateRoomId (pub1 pub2 : string) : string :=
  Js.Array_join "_" (Js.Array_sort Js.default_compare [pub1; pub2]).

(** [auth.logout]: [user.leave()] ends the session. *)
Definition logout (st : AppState) : AppState := with_user_is None st.

(** [auth.isLoggedIn]: [!!user.is] *)
Definition isLoggedIn (st : AppState) : bool :=
  match gun_user_is st with
  | Some _ => true
  | None => false
  end.

(** [auth.setLastRead] *)
Definition setLastRead (chatId : string) (timestamp : Z) (st : AppState)
  : AppState :=
  match gun_user_is st with
  | Some _ => emit (UserPutLastRead chatId timestamp) st
  | None => st
  end.

(** [auth.addFriend]: the only condition on the write is a live session. *)
Definition addFriend (pub alias : string) (st : AppState) : AppState :=
  match gun_user_is st with
  | Some _ => emit (UserPutFriend pub (mkFriendData pub alias "friend" None)) st
  | None => st
  end.

(** [sendMessage]. The function is [async]; the one-shot read of the
    user's alias resolves to the alias of the session, and the model runs
    the body to its end in one step. [now] is [Date.now()]. *)
Definition sendMessage (text : string) (now : Z) (st : AppState) : AppState :=
  match gun_user_is st with
  | None => st
  | Some u =>
      let alias := is_alias u in
      let pub := is_pub u in
      emit (GunSet globalChatPath (mkPayload text alias pub now)) st
  end.

(** [sendPrivateMessage], with the same reading of [await]. *)
Definition sendPrivateMessage (friendPub text : string) (now : Z)
  (st : AppState) : AppState :=
  match gun_user_is st with
  | None => st
  | Some u =>
      let roomId := getPrivateRoomId (is_pub u) friendPub in
      let alias := is_alias u in
      emit (GunSet (privateChatPath roomId)
              (mkPayload text alias (is_pub u) now)) st
  end.

End GunService.

(** ** The [App] component of [App.tsx] *)
Module App.

Import GunService.

(** The comparator [(a, b) => b.time - a.time]. With a time that is not a
    number the difference is NaN, which [sort] reads as [+0]. *)
Definition by_time_desc (a b : Message) : Z :=
  match m_time b, m_time a with
  | Some tb, Some ta => tb - ta
  | _, _ => 0
  end.

(** [{ ...data, id }] for a value whose text is [text]: the key becomes
    the message id. *)
Definition message_of (data : MessageData) (text : string) (id : string)
  : Message :=
  mkMessage id text (md_user data) (md_pub data) (md_time data).

(** [{ ...data, pub: id }]: the [pub] of the value is overwritten. *)
Definition friend_of (data : FriendData) (id : string) : Friend :=
  mkFriend id (fd_alias data) (fd_status data) (fd_online data).

(** The updater shared by both message callbacks: leave the list alone
    when the id is there, else put the message in front and sort. *)
Definition merge_message (m : Message) (prev : list Message) : list Message :=
  match Js.Array_find (fun x => (m_id x =? m_id m)%string) prev with
  | Some _ => prev
  | None => Js.Array_sort by_time_desc (m :: prev)
  end.

(** The text of a value passing the guard [data && data.msg]. *)
Definition accepted_text (data : option MessageData) : option string :=
  match data with
  | Some d =>
      match md_msg d with
      | Some text => if Js.truthy text then Some text else None
      | None => None
      end
  | None => None
  end.

(** The callback of the auth listener on [gunUser.get('alias')]. *)
Definition aliasListener (alias : option string) (st : AppState) : AppState :=
  let st' :=
    match alias, gun_user_is st with
    | Some a, Some u =>
        if Js.truthy a
        then setCurrentPub (is_pub u)
               (setCurrentUser a (setIsAuthenticated true st))
        else setCurrentPub "" (setCurrentUser "" (setIsAuthenticated false st))
    | _, _ => setCurrentPub "" (setCurrentUser "" (setIsAuthenticated false st))
    end in
  setIsCheckingAuth false st'.

(** The callback of the global chat listener. *)
Definition globalChatListener (data : option MessageData) (id : string)
  (st : AppState) : AppState :=
  match data, accepted_text data with
  | Some d, Some text =>
      setGlobalMessages (merge_message (message_of d text id)) st
  | _, _ => st
  end.

(** The callback of a private room listener; [roomId] is the variable
    its closure captured. *)
Definition privateRoomListener (roomId : string) (msg : option MessageData)
  (msgId : string) (st : AppState) : AppState :=
  match msg, accepted_text msg with
  | Some d, Some text =>
      setPrivateMessages (fun prev =>
        let roomMsgs := default [] (prev !! roomId) in
        match Js.Array_find (fun m => (m_id m =? msgId)%string) roomMsgs with
        | Some _ => prev
        | None =>
            <[roomId := Js.Array_sort by_time_desc
                          (message_of d text msgId :: roomMsgs)]> prev
        end) st
  | _, _ => st
  end.

(** [friendsHandler] *)
Definition friendsHandler (data : option FriendData) (id : string)
  (st : AppState) : AppState :=
  match data with
  | Some d =>
      if (fd_status d =? "friend")%string then
        let st1 :=
          setFriends (fun prev =>
            match Js.Array_find (fun f => (f_pub f =? id)%string) prev with
            | Some _ => prev
            | None => (prev ++ [friend_of d id])%list
            end) st in
        match gun_user_is st1 with
        | Some u =>
            let roomId := getPrivateRoomId (is_pub u) id in
            attach (OnPrivateRoom roomId) st1
        | None => st1
        end
      else st
  | None => st
  end.

(** The body of the effect [useEffect(..., [isAuthenticated])]. *)
Definition effect (st : AppState) : AppState :=
  let st1 := attach OnAlias st in
  let st2 := attach OnGlobalChat st1 in
  match gun_user_is st2 with
  | Some _ => attach OnFriends st2
  | None => st2
  end.

(** Its cleanup, [return () => {};]. *)
Definition effect_cleanup (st : AppState) : AppState := st.

Definition handleSendMessage (text : string) (now : Z) (st : AppState)
  : AppState :=
  match gun_user_is st with
  | None => st
  | Some u =>
      emit (GunSet globalChatPath
              (mkPayload text (currentUser st) (is_pub u) now)) st
  end.

Definition handleSendPrivateMessage (text : string) (now : Z)
  (st : AppState) : AppState :=
  match gun_user_is st, selectedFriend st with
  | Some u, Some friend =>
      let roomId := getPrivateRoomId (is_pub u) (f_pub friend) in
      emit (GunSet (privateChatPath roomId)
              (mkPayload text (currentUser st) (is_pub u) now)) st
  | _, _ => st
  end.

Definition handleAddFriend (st : AppState) : AppState :=
  if negb (Js.truthy (Js.String_trim (friendIdInput st)))
     || negb (Js.truthy (Js.String_trim (friendAliasInput st)))
  then st
  else
    let st1 := addFriend (friendIdInput st) (friendAliasInput st) st in
    setShowAddFriend false (setFriendAliasInput "" (setFriendIdInput "" st1)).

Definition handleLogout (st : AppState) : AppState :=
  setCurrentPub "" (setCurrentUser "" (setIsAuthenticated false (logout st))).

End App.

(** ** The session as a transition system *)

(** An event the graph delivers on one of the subscribed paths. *)
Inductive StoreEvent :=
| EvAlias (alias : option string)
| EvGlobal (data : option MessageData) (id : string)
| EvFriend (data : option FriendData) (id : string)
| EvPrivate (roomId : string) (msg : option MessageData) (msgId : string).

(** What one registered callback does with an event: it runs when the
    event is on its path. *)
Definition run_listener (l : Listener) (e : StoreEvent) (st : AppState)
  : AppState :=
  match l, e with
  | OnAlias, EvAlias alias => App.aliasListener alias st
  | OnGlobalChat, EvGlobal data id => App.globalChatListener data id st
  | OnFriends, EvFriend data id => App.friendsHandler data id st
  | OnPrivateRoom r, EvPrivate r' msg msgId =>
      if decide (r = r') then App.privateRoomListener r msg msgId st else st
  | _, _ => st
  end.

(** The graph calls every callback registered when the event arrives, each
    running to completion before the next. *)
Definition deliver (e : StoreEvent) (st : AppState) : AppState :=
  foldl (fun s l => run_listener l e s) st (gun_listeners st).

(** What can happen to a mounted [App]. *)
Inductive Action :=
| Deliver (e : StoreEvent)
| ProviderAuth (u : Identity)
| SendGlobal (text : string) (now : Z)
| SendPrivate (text : string) (now : Z)
| TypeFriendId (s : string)
| TypeFriendAlias (s : string)
| SelectFriend (f : option Friend)
| ShowAddFriend (b : bool)
| AddFriend
| Logout.

Definition perform (a : Action) (st : AppState) : AppState :=
  match a with
  | Deliver e => deliver e st
  | ProviderAuth u => with_user_is (Some u) st
  | SendGlobal text now => App.handleSendMessage text now st
  | SendPrivate text now => App.handleSendPrivateMessage text now st
  | TypeFriendId s => setFriendIdInput s st
  | TypeFriendAlias s => setFriendAliasInput s st
  | SelectFriend f => setSelectedFriend f st
  | ShowAddFriend b => setShowAddFriend b st
  | AddFriend => App.handleAddFriend st
  | Logout => App.handleLogout st
  end.

(** After the render that follows an action, React runs the effect again
    (cleanup first) when its dependency [isAuthenticated] has changed. *)
Definition commit (old new : AppState) : AppState :=
  if Bool.eqb (isAuthenticated old) (isAuthenticated new)
  then new
  else App.effect (App.effect_cleanup new).

Definition step (a : Action) (st : AppState) : AppState :=
  commit st (perform a st).

Definition run (acts : list Action) (st : AppState) : AppState :=
  foldl (fun s a => step a s) st acts.

(** The state before the first render; [restored] is the session recalled
    from session storage, if any. *)
Definition initial (restored : option Identity) : AppState :=
  mkAppState restored [] [] false "" "" true [] ∅ [] None false "" "".

(** The state once [App] is mounted and its effect has run. *)
Definition mounted (restored : option Identity) : AppState :=
  App.effect (initial restored).

(** ** Sample data: the scenarios of the specification *)

Definition alice : Identity := mkIdentity "PUBA" "alice".

Definition hello : MessageData :=
  mkMessageData (Some "hello") "alice" "PUBA" (Some 1000).

Definition textless : MessageData :=
  mkMessageData None "alice" "PUBA" (Some 1000).

Definition bob_record : FriendData := mkFriendData "PUBX" "bob" "friend" None.

Definition carol : Identity := mkIdentity "PUBC" "carol".

(** Alice's session once the alias listener has fired. *)
Definition alice_signed_in : AppState :=
  step (Deliver (EvAlias (Some "alice"))) (mounted (Some alice)).

(** ** Vocabulary of the properties *)

(** A room: the global one or a private one. *)
Inductive Room :=
| GlobalRoom
| PrivateRoom (roomId : string).

#[global] Instance Room_eq_dec : EqDecision Room.
Proof. solve_decision. Defined.

Definition room_messages (r : Room) (st : AppState) : list Message :=
  match r with
  | GlobalRoom => globalMessages st
  | PrivateRoom roomId => default [] (privateMessages st !! roomId)
  end.

(** The room's callback applied to a raw event. *)
Definition on_room_event (r : Room) (data : option MessageData) (key : string)
  (st : AppState) : AppState :=
  match r with
  | GlobalRoom => App.globalChatListener data key st
  | PrivateRoom roomId => App.privateRoomListener roomId data key st
  end.

Definition has_id (key : string) (l : list Message) : Prop :=
  exists m, In m l /\ m_id m = key.








(** The value of an event is absent (a tombstone) or has no text field. *)
Definition lacks_text (data : option MessageData) : Prop :=
  match data with
  | None => True
  | Some d => md_msg d = None
  end.

(** How many callbacks are attached to the path of a private room. *)
Definition subscriptions_on (roomId : string) (st : AppState) : nat :=
  length (filter (fun l => l = OnPrivateRoom roomId) (gun_listeners st)).

(** How many entries of the registry carry a public key. *)
Definition entries_for (pub : string) (st : AppState) : nat :=
  length (filter (fun f => f_pub f = pub) (friends st)).

(** A friend event that passes the guard of [friendsHandler] and whose key
    resolves, for the session [me], to the room [roomId]. *)
Definition opens_room (me : Identity) (roomId : string)
  (e : option FriendData * string) : bool :=
  match fst e with
  | Some d =>
      (fd_status d =? "friend")%string
      && (GunService.getPrivateRoomId (is_pub me) (snd e) =? roomId)%string
  | None => false
  end.

(** A friend stream handled by one [friendsHandler]. *)
Definition handle_friend_stream (evs : list (option FriendData * string))
  (st : AppState) : AppState :=
  foldl (fun s e => App.friendsHandler (fst e) (snd e) s) st evs.

(** [st'] has every callback of [st], in place, and possibly more. *)
Definition listeners_kept (st st' : AppState) : Prop :=
  exists more, gun_listeners st' = (gun_listeners st ++ more)%list.

(** No friend record with an empty key or alias has been written. *)
Definition friend_writes_valid (st : AppState) : Prop :=
  forall key r, In (UserPutFriend key r) (gun_writes st) ->
    key <> "" /\ fd_pub r <> "" /\ fd_alias r <> "".

(** The string has no occurrence of the separator ['_']. *)
Fixpoint separator_free (s : string) : bool :=
  match s with
  | EmptyString => true
  | String c s' => negb (Ascii.eqb c "_") && separator_free s'
  end.

(** Identities among which room ids cannot be ambiguous: none contains the
    separator, or all have one length (as keys of one fixed format do). *)
Definition unambiguous (ids : list string) : Prop :=
  Forall (fun s => separator_free s = true) ids
  \/ exists n, Forall (fun s => String.length s = n) ids.

(** ** Further parts of [App.tsx]: [ChatView], [AuthOverlay], the render *)

Module JsString.

(** [needle] is a prefix of [s]. *)
Fixpoint starts_with (needle s : string) : bool :=
  match needle, s with
  | EmptyString, _ => true
  | String _ _, EmptyString => false
  | String a needle', String b s' => Ascii.eqb a b && starts_with needle' s'
  end.

(** [s.includes(needle)]: [needle] occurs somewhere in [s]. *)
Fixpoint String_includes (needle s : string) : bool :=
  starts_with needle s
  || match s with
     | EmptyString => false
     | String _ s' => String_includes needle s'
     end.

(** Every code unit of the string is white space. *)
Fixpoint blank (s : string) : bool :=
  match s with
  | EmptyString => true
  | String c s' => Js.is_white_space c && blank s'
  end.

End JsString.

(** A message value as the graph hands it to a listener once a payload
    has been written: the same four fields. *)
Definition as_delivered (p : Payload) : MessageData :=
  mkMessageData (Some (p_msg p)) (p_user p) (p_pub p) (Some (p_time p)).

Module ChatView.

(** [notif.msg?.includes(`@${currentUser}`)] *)
Definition isMention (notif : Message) (currentUser : string) : bool :=
  JsString.String_includes ("@" ++ currentUser) (m_msg notif).

(** [handleSend]: [input] is the state of the text field, [onSendMessage]
    the callback of the parent; the result is the new content of the field
    and the state the callback leaves. *)
Definition handleSend (onSendMessage : string -> AppState -> AppState)
  (input : string) (st : AppState) : string * AppState :=
  if negb (Js.truthy (Js.String_trim input))
  then (input, st)
  else ("", onSendMessage input st).

End ChatView.

Module AppView.

(** The callback [App] hands to [AuthOverlay]:
    [(user) => { setIsAuthenticated(true); setCurrentUser(user); }] *)
Definition onAuthSuccess (user : string) (st : AppState) : AppState :=
  setCurrentUser user (setIsAuthenticated true st).

(** The messages [App] hands to the [ChatView] of a selected friend:
    [privateMessages[getPrivateRoomId(currentPub, selectedFriend.pub)] || []] *)
Definition privateChatShown (friend : Friend) (st : AppState) : list Message :=
  default []
    (privateMessages st
       !! GunService.getPrivateRoomId (currentPub st) (f_pub friend)).

(** Sending from the conversation with a selected friend, and from the
    global chat: [ChatView] with the handler [App] gives it. *)
Definition sendFromPrivateChat (input : string) (now : Z) (st : AppState)
  : string * AppState :=
  ChatView.handleSend (fun text => App.handleSendPrivateMessage text now)
    input st.

Definition sendFromGlobalChat (input : string) (now : Z) (st : AppState)
  : string * AppState :=
  ChatView.handleSend (fun text => App.handleSendMessage text now) input st.

End AppView.

Module AuthOverlay.

(** The state of the overlay. *)
Record State := mkState {
  isLogin : bool;
  username : string;
  password : string;
  showPassword : bool;
  loading : bool;
  error : string
}.

(** What the identity provider answers to [user.auth(name, pass, cb)]:
    [ack.err], and [user.is] as the call leaves it. *)
Record AuthAck := mkAuthAck {
  ack_err : option string;
  ack_is : option Identity
}.

(** The reason a promise of [auth.register] or [auth.login] is rejected
    with: [if (ack.err) reject(ack.err) else resolve()]. *)
Definition rejection (err : option string) : option string :=
  match err with
  | Some e => if Js.truthy e then Some e else None
  | None => None
  end.

(** [err || 'Authentication failed'] *)
Definition error_text (err : string) : string :=
  if Js.truthy err then err else "Authentication failed".

(** [auth.login] against an answer of the provider: the session the call
    leaves, and the rejection if any. *)
Definition login (answer : AuthAck) (st : AppState)
  : AppState * option string :=
  (with_user_is (ack_is answer) st, rejection (ack_err answer)).

(** [handleSubmit]. [created] is the [ack.err] of [user.create] and
    [answer] the answer to [user.auth], should the calls be made. *)
Definition handleSubmit (created : option string) (answer : AuthAck)
  (ov : State) (st : AppState) : State * AppState :=
  let failed (err : string) (st' : AppState) :=
    (mkState (isLogin ov) (username ov) (password ov) (showPassword ov)
       false (error_text err), st') in
  let succeeded (st' : AppState) :=
    (mkState (isLogin ov) (username ov) (password ov) (showPassword ov)
       false "", AppView.onAuthSuccess (username ov) st') in
  let try_login (st0 : AppState) :=
    match login answer st0 with
    | (st1, Some err) => failed err st1
    | (st1, None) => succeeded st1
    end in
  if isLogin ov then try_login st
  else
    match rejection created with
    | Some err => failed err st
    | None => try_login st
    end.

End AuthOverlay.

(** ** Further vocabulary *)

(** The callback of a room and the event that reaches it. *)
Definition room_listener (r : Room) : Listener :=
  match r with
  | GlobalRoom => OnGlobalChat
  | PrivateRoom roomId => OnPrivateRoom roomId
  end.

Definition room_event (r : Room) (data : option MessageData) (key : string)
  : StoreEvent :=
  match r with
  | GlobalRoom => EvGlobal data key
  | PrivateRoom roomId => EvPrivate roomId data key
  end.

(** The identity provider sets no session during these actions. *)
Definition no_provider_auth (acts : list Action) : bool :=
  forallb (fun a => match a with ProviderAuth _ => false | _ => true end) acts.

(** The listener is one of the two the effect attaches without a session. *)
Definition sessionless_listener (l : Listener) : bool :=
  match l with
  | OnAlias | OnGlobalChat => true
  | OnFriends | OnPrivateRoom _ => false
  end.

(** Since [st0] nothing has been written and nothing but callbacks of the
    effect attached, and there is no session. *)
Definition quiet (st0 st : AppState) : Prop :=
  gun_user_is st = None
  /\ gun_writes st = gun_writes st0
  /\ exists more, gun_listeners st = (gun_listeners st0 ++ more)%list
       /\ forallb sessionless_listener more = true.

(** The message writes among the writes, as (path, payload). *)
Definition message_writes (ws : list Write) : list (list string * Payload) :=
  flat_map (fun w => match w with
                     | GunSet path p => [(path, p)]
                     | _ => []
                     end) ws.

(** * Properties *)

(** ** The sort *)
Section SortFacts.

Context {A : Type}.
Variable cmp : A -> A -> Z.

Lemma in_sort_insert (x y : A) (l : list A) :
  In y (Js.sort_insert cmp x l) <-> y = x \/ In y l.
Proof.
  induction l as [|z l IH]; simpl.
  - intuition congruence.
  - destruct (cmp x z <=? 0); simpl; [intuition congruence|].
    rewrite IH. intuition congruence.
Qed.

Lemma in_Array_sort (y : A) (l : list A) :
  In y (Js.Array_sort cmp l) <-> In y l.
Proof.
  induction l as [|x l IH]; simpl; [tauto|].
  rewrite in_sort_insert, IH. intuition congruence.
Qed.

(** An order the comparator decides among the elements with a property
    [P]: there the sign of [cmp x y] tells which of the two may stand
    first. *)
Variable P : A -> Prop.
Variable R : A -> A -> Prop.
Hypothesis R_trans :
  forall x y z, P x -> P y -> P z -> R x y -> R y z -> R x z.
Hypothesis cmp_le : forall x y, P x -> P y -> cmp x y <= 0 -> R x y.
Hypothesis cmp_gt : forall x y, P x -> P y -> 0 < cmp x y -> R y x.




End SortFacts.

(** ** RoomAddressResolver: [getPrivateRoomId] *)
Section Resolver.

Import GunService.

(** The function written out: the smaller key first. *)
Lemma getPrivateRoomId_unfold (a b : string) :
  getPrivateRoomId a b =
    match String.compare a b with
    | Gt => b ++ "_" ++ a
    | _ => a ++ "_" ++ b
    end.
Proof.
  unfold getPrivateRoomId, Js.Array_sort, Js.default_compare. simpl.
  destruct (String.compare a b); reflexivity.
Qed.

Lemma append_nil (t : string) : "" ++ t = t.
Proof. reflexivity. Qed.

Lemma append_cons (c : ascii) (s t : string) :
  String c s ++ t = String c (s ++ t).
Proof. reflexivity. Qed.

Lemma string_app_inj_length (s1 s2 t1 t2 : string) :
  String.length s1 = String.length s2 ->
  s1 ++ t1 = s2 ++ t2 -> s1 = s2 /\ t1 = t2.
Proof.
  revert s2. induction s1 as [|c s1 IH]; intros [|c2 s2] Hlen Heq;
    rewrite ?append_cons, ?append_nil in Heq; simpl in Hlen;
    try discriminate.
  - auto.
  - injection Heq as -> Heq. injection Hlen as Hlen.
    destruct (IH s2 Hlen Heq) as [-> ->]. auto.
Qed.

Lemma string_app_inj_separator (s1 s2 t1 t2 : string) :
  separator_free s1 = true -> separator_free s2 = true ->
  s1 ++ "_" ++ t1 = s2 ++ "_" ++ t2 -> s1 = s2 /\ t1 = t2.
Proof.
  revert s2. induction s1 as [|c s1 IH]; intros [|c2 s2] H1 H2 Heq;
    rewrite ?append_cons, ?append_nil in Heq; simpl in H1, H2.
  - injection Heq as ->. auto.
  - injection Heq as <- _. discriminate.
  - injection Heq as -> _. discriminate.
  - injection Heq as -> Heq.
    apply andb_prop in H1 as [_ H1]. apply andb_prop in H2 as [_ H2].
    destruct (IH s2 H1 H2 Heq) as [-> ->]. auto.
Qed.

Lemma joined_inj (a b c d : string) :
  unambiguous [a; b; c; d] ->
  a ++ "_" ++ b = c ++ "_" ++ d -> a = c /\ b = d.
Proof.
  intros [Hfree|[n Hlen]] Heq.
  - inversion Hfree as [|? ? Ha Hfree1]; subst.
    inversion Hfree1 as [|? ? Hb Hfree2]; subst.
    inversion Hfree2 as [|? ? Hc _]; subst.
    apply string_app_inj_separator; assumption.
  - inversion Hlen as [|? ? Ha Hlen1]; subst.
    inversion Hlen1 as [|? ? Hb Hlen2]; subst.
    inversion Hlen2 as [|? ? Hc _]; subst.
    destruct (string_app_inj_length a c ("_" ++ b) ("_" ++ d)) as [-> Hbd];
      [congruence | assumption |].
    rewrite !append_cons, !append_nil in Hbd. injection Hbd as ->. auto.
Qed.

Lemma unambiguous_perm (l l' : list string) :
  (forall x, In x l' -> In x l) -> unambiguous l -> unambiguous l'.
Proof.
  intros Hsub [H|[n H]]; [left | right; exists n];
    rewrite List.Forall_forall in *; auto.
Qed.

End Resolver.

(** C4. [getPrivateRoomId] is symmetric: for all identity strings [a] and
    [b], [getPrivateRoomId a b = getPrivateRoomId b a]. Being a function of
    its two arguments alone, its result depends on nothing else. *)
Theorem getPrivateRoomId_symmetric (a b : string) :
  GunService.getPrivateRoomId a b = GunService.getPrivateRoomId b a.
Proof.
  rewrite !getPrivateRoomId_unfold, (String.compare_antisym b a).
  destruct (String.compare a b) eqn:Hc; simpl; try reflexivity.
  apply String.compare_eq_iff in Hc. subst. reflexivity.
Qed.

(** C5, as stated, fails: the separator may occur inside an identity, so
    the pairs {x, y_z} and {x_y, z} of four distinct non-empty strings get
    one room id. *)
Lemma getPrivateRoomId_collision :
  let a := "x" in let b := "y_z" in let c := "x_y" in let d := "z" in
  NoDup [a; b; c; d]
  /\ Forall (fun s => s <> "") [a; b; c; d]
  /\ ~ ((a = c /\ b = d) \/ (a = d /\ b = c))
  /\ GunService.getPrivateRoomId a b = GunService.getPrivateRoomId c d.
Proof.
  simpl. split; [|split; [|split]].
  - repeat constructor; rewrite ?list_elem_of_In; simpl; intuition discriminate.
  - repeat constructor; discriminate.
  - intros [[H _]|[H _]]; discriminate.
  - reflexivity.
Qed.

(** C5, amended. Among identities that contain no ['_'], or that all have
    the same length, two pairs with the same room id are the same unordered
    pair. *)
Theorem getPrivateRoomId_collision_free (a b c d : string) :
  unambiguous [a; b; c; d] ->
  GunService.getPrivateRoomId a b = GunService.getPrivateRoomId c d ->
  (a = c /\ b = d) \/ (a = d /\ b = c).
Proof.
  intros Hu. rewrite !getPrivateRoomId_unfold.
  destruct (String.compare a b), (String.compare c d); cbv iota; intros Heq.
  all: apply joined_inj in Heq;
    [tauto | revert Hu; apply unambiguous_perm; simpl; tauto].
Qed.

Lemma getPrivateRoomId_collision_free_witness :
  unambiguous ["PUBA"; "PUBB"; "PUBB"; "PUBA"]
  /\ (("PUBA" = "PUBB" /\ "PUBB" = "PUBA") \/ ("PUBA" = "PUBA" /\ "PUBB" = "PUBB")).
Proof.
  assert (Hu : unambiguous ["PUBA"; "PUBB"; "PUBB"; "PUBA"]).
  { right. exists 4%nat. repeat constructor. }
  split; [exact Hu|].
  apply (getPrivateRoomId_collision_free "PUBA" "PUBB" "PUBB" "PUBA" Hu).
  reflexivity.
Defined.

(** ** MessageReconciler: the two message callbacks *)
Section Reconciler.

Import App.

Lemma find_id_Some (key : string) (l : list Message) :
  has_id key l <->
  exists m, Js.Array_find (fun x => (m_id x =? key)%string) l = Some m.
Proof.
  unfold Js.Array_find. split.
  - intros (m & Hin & Hid).
    destruct (List.find _ l) as [m'|] eqn:Hf; [eauto|].
    apply (List.find_none _ _ Hf) in Hin.
    rewrite <- Hid, String.eqb_refl in Hin. discriminate.
  - intros (m & Hf). apply List.find_some in Hf as [Hin Hid].
    exists m. split; [assumption | apply String.eqb_eq, Hid].
Qed.

Lemma find_id_None (key : string) (l : list Message) :
  ~ has_id key l ->
  Js.Array_find (fun x => (m_id x =? key)%string) l = None.
Proof.
  intros Hno. destruct (Js.Array_find _ l) as [m|] eqn:Hf; [|reflexivity].
  exfalso. apply Hno, find_id_Some. eauto.
Qed.

Lemma has_id_dec (key : string) (l : list Message) :
  has_id key l \/ ~ has_id key l.
Proof.
  destruct (Js.Array_find (fun x => (m_id x =? key)%string) l) as [m|] eqn:Hf.
  - left. apply find_id_Some. eauto.
  - right. intros H. apply find_id_Some in H as [m Hm]. congruence.
Qed.

Lemma has_id_sorted_cons (m : Message) (l : list Message) :
  has_id (m_id m) (Js.Array_sort by_time_desc (m :: l)).
Proof. exists m. split; [apply in_Array_sort; left|]; reflexivity. Qed.


Lemma merge_message_present (m : Message) (prev : list Message) :
  has_id (m_id m) prev -> merge_message m prev = prev.
Proof.
  intros H. apply find_id_Some in H as [m' Hm']. unfold merge_message.
  rewrite Hm'. reflexivity.
Qed.

Lemma merge_message_has_id (m : Message) (prev : list Message) :
  has_id (m_id m) (merge_message m prev).
Proof.
  unfold merge_message.
  destruct (Js.Array_find _ prev) as [m'|] eqn:Hf.
  - apply find_id_Some. eauto.
  - apply has_id_sorted_cons.
Qed.


(** The private callback updates the list of its room with the same
    [merge_message] and leaves the other rooms alone. *)
Lemma privateRoomListener_accepted (roomId : string) (d : MessageData)
  (text msgId : string) (st : AppState) :
  accepted_text (Some d) = Some text ->
  forall r,
    room_messages r (privateRoomListener roomId (Some d) msgId st) =
      if decide (r = PrivateRoom roomId)
      then merge_message (message_of d text msgId) (room_messages r st)
      else room_messages r st.
Proof.
  intros Hacc r. unfold privateRoomListener. rewrite Hacc.
  unfold merge_message. cbn [m_id message_of].
  destruct r as [|r']; cbn [room_messages setPrivateMessages globalMessages
                             privateMessages].
  - destruct (decide _) as [H|_]; [discriminate H | reflexivity].
  - destruct (decide (PrivateRoom r' = PrivateRoom roomId)) as [[= ->]|Hne].
    + destruct (Js.Array_find _ _); [reflexivity|].
      rewrite lookup_insert_eq. reflexivity.
    + destruct (Js.Array_find _ _); [reflexivity|].
      rewrite lookup_insert_ne; [reflexivity | congruence].
Qed.

Lemma globalChatListener_accepted (d : MessageData) (text id : string)
  (st : AppState) :
  accepted_text (Some d) = Some text ->
  forall r,
    room_messages r (globalChatListener (Some d) id st) =
      if decide (r = GlobalRoom)
      then merge_message (message_of d text id) (room_messages r st)
      else room_messages r st.
Proof.
  intros Hacc r. unfold globalChatListener. rewrite Hacc.
  destruct r as [|r']; cbn [room_messages setGlobalMessages globalMessages
                             privateMessages].
  - destruct (decide _) as [_|H]; [reflexivity | congruence].
  - destruct (decide _) as [H|_]; [discriminate H | reflexivity].
Qed.

Lemma on_room_event_rejected (r : Room) (data : option MessageData)
  (key : string) (st : AppState) :
  accepted_text data = None -> on_room_event r data key st = st.
Proof.
  intros Hacc. destruct r; cbn [on_room_event];
    unfold globalChatListener, privateRoomListener;
    (destruct data; [rewrite Hacc|]); reflexivity.
Qed.

Lemma on_room_event_present (r : Room) (data : option MessageData)
  (key : string) (st : AppState) :
  has_id key (room_messages r st) -> on_room_event r data key st = st.
Proof.
  intros Hid. destruct (accepted_text data) as [text|] eqn:Hacc;
    [|apply on_room_event_rejected, Hacc].
  destruct data as [d|]; [|discriminate Hacc].
  destruct r as [|roomId]; cbn [on_room_event room_messages] in *.
  - unfold globalChatListener. rewrite Hacc.
    destruct st; unfold setGlobalMessages; cbn in *.
    rewrite merge_message_present; [reflexivity | exact Hid].
  - unfold privateRoomListener. rewrite Hacc.
    apply find_id_Some in Hid as [m Hm].
    destruct st; unfold setPrivateMessages; cbn in *.
    rewrite Hm. reflexivity.
Qed.

Lemma on_room_event_has_id (r : Room) (d : MessageData) (text key : string)
  (st : AppState) :
  accepted_text (Some d) = Some text ->
  has_id key (room_messages r (on_room_event r (Some d) key st)).
Proof.
  intros Hacc. destruct r as [|roomId]; cbn [on_room_event].
  - rewrite (globalChatListener_accepted _ _ _ _ Hacc).
    rewrite decide_True by reflexivity.
    apply (merge_message_has_id (message_of d text key)).
  - rewrite (privateRoomListener_accepted _ _ _ _ _ Hacc).
    rewrite decide_True by reflexivity.
    apply (merge_message_has_id (message_of d text key)).
Qed.

End Reconciler.

(** C2. An event whose key already occurs in the room's list changes
    nothing, and applying an event twice under the same key gives the
    state, hence the message list, that applying it once gives. *)
Theorem on_room_event_idempotent (r : Room) (data : option MessageData)
  (key : string) (st : AppState) :
  (has_id key (room_messages r st) -> on_room_event r data key st = st)
  /\ on_room_event r data key (on_room_event r data key st)
     = on_room_event r data key st.
Proof.
  split; [apply on_room_event_present|].
  destruct (App.accepted_text data) as [text|] eqn:Hacc.
  - destruct data as [d|]; [|discriminate Hacc].
    apply on_room_event_present. eapply on_room_event_has_id, Hacc.
  - rewrite !on_room_event_rejected by exact Hacc. reflexivity.
Qed.

(** C6. An event whose value is absent or has no text field leaves the
    state, and with it every message list, as it was. *)
Theorem on_room_event_drops_textless (r : Room) (data : option MessageData)
  (key : string) (st : AppState) :
  lacks_text data -> on_room_event r data key st = st.
Proof.
  intros H. apply on_room_event_rejected.
  destruct data as [d|]; [|reflexivity].
  cbn in H. unfold App.accepted_text. rewrite H. reflexivity.
Qed.

Lemma on_room_event_idempotent_witness :
  let st := on_room_event GlobalRoom (Some hello) "m1" (mounted None) in
  has_id "m1" (room_messages GlobalRoom st)
  /\ on_room_event GlobalRoom (Some hello) "m1" st = st.
Proof.
  intros st.
  assert (H : has_id "m1" (room_messages GlobalRoom st)).
  { eexists. split; [left; reflexivity | reflexivity]. }
  split; [exact H|].
  exact (proj1 (on_room_event_idempotent GlobalRoom (Some hello) "m1" st) H).
Defined.

Lemma on_room_event_drops_textless_witness :
  lacks_text (Some textless)
  /\ on_room_event (PrivateRoom "PUBA_PUBB") (Some textless) "m1"
       (mounted (Some alice)) = mounted (Some alice).
Proof.
  split; [reflexivity|].
  apply (on_room_event_drops_textless (PrivateRoom "PUBA_PUBB")
           (Some textless) "m1" (mounted (Some alice))).
  reflexivity.
Defined.

(** ** Order of the message lists along a session *)
Section OrderInvariant.

Import App.


Lemma aliasListener_rooms (alias : option string) (st : AppState) (r : Room) :
  room_messages r (aliasListener alias st) = room_messages r st.
Proof.
  unfold aliasListener.
  destruct alias as [a|], (gun_user_is st); try destruct (Js.truthy a);
    destruct r; reflexivity.
Qed.

Lemma friendsHandler_rooms (data : option FriendData) (id : string)
  (st : AppState) (r : Room) :
  room_messages r (friendsHandler data id st) = room_messages r st.
Proof.
  unfold friendsHandler. destruct data as [d|]; [|reflexivity].
  destruct (fd_status d =? "friend")%string; [|reflexivity].
  cbn [gun_user_is setFriends]. destruct (gun_user_is st);
    destruct r; reflexivity.
Qed.

Lemma effect_rooms (st : AppState) (r : Room) :
  room_messages r (effect st) = room_messages r st.
Proof.
  unfold effect. cbn [gun_user_is attach with_listeners].
  destruct (gun_user_is st); destruct r; reflexivity.
Qed.









End OrderInvariant.




Example arrival_order_is_irrelevant :
  let m1 := mkMessageData (Some "one") "alice" "PUBA" (Some 2000) in
  let m2 := mkMessageData (Some "two") "bob" "PUBB" (Some 1000) in
  let a1 := Deliver (EvGlobal (Some m1) "m1") in
  let a2 := Deliver (EvGlobal (Some m2) "m2") in
  map m_id (globalMessages (run [a1; a2; a1] (mounted None))) = ["m1"; "m2"]
  /\ map m_id (globalMessages (run [a2; a1; a2] (mounted None))) = ["m1"; "m2"].
Proof. split; reflexivity. Qed.

Example duplicate_delivery_is_merged :
  let a := Deliver (EvGlobal (Some hello) "m1") in
  map m_id (globalMessages (run [a; a] (mounted None))) = ["m1"].
Proof. reflexivity. Qed.

Example doubled_callback_inserts_once :
  let ev := Deliver (EvFriend (Some bob_record) "PUBB") in
  let msg := Deliver (EvPrivate "PUBA_PUBB" (Some hello) "m1") in
  let st := run [ev; ev; msg] (mounted (Some alice)) in
  gun_listeners st =
    [OnAlias; OnGlobalChat; OnFriends;
     OnPrivateRoom "PUBA_PUBB"; OnPrivateRoom "PUBA_PUBB"]
  /\ map m_id (room_messages (PrivateRoom "PUBA_PUBB") st) = ["m1"].
Proof. split; reflexivity. Qed.

(** ** FriendRegistry: [friendsHandler] *)
Section Registry.

Import App GunService.

Lemma friendsHandler_user_is (data : option FriendData) (id : string)
  (st : AppState) :
  gun_user_is (friendsHandler data id st) = gun_user_is st.
Proof.
  unfold friendsHandler. destruct data as [d|]; [|reflexivity].
  destruct (fd_status d =? "friend")%string; [|reflexivity].
  cbn [gun_user_is setFriends].
  destruct (gun_user_is st) eqn:Hu; cbn; exact Hu.
Qed.

Lemma subscriptions_on_attach (roomId : string) (l : Listener)
  (st : AppState) :
  subscriptions_on roomId (attach l st) =
    (subscriptions_on roomId st
     + if decide (l = OnPrivateRoom roomId) then 1 else 0)%nat.
Proof.
  unfold subscriptions_on, attach. cbn [gun_listeners with_listeners].
  rewrite filter_app, length_app, filter_cons, filter_nil.
  destruct (decide _); reflexivity.
Qed.

Lemma friendsHandler_subscriptions (me : Identity) (roomId : string)
  (data : option FriendData) (id : string) (st : AppState) :
  gun_user_is st = Some me ->
  subscriptions_on roomId (friendsHandler data id st) =
    (subscriptions_on roomId st
     + if opens_room me roomId (data, id) then 1 else 0)%nat.
Proof.
  intros Hme. unfold friendsHandler, opens_room. cbn [fst snd].
  destruct data as [d|]; [|lia].
  destruct (fd_status d =? "friend")%string; cbn [andb]; [|lia].
  cbn [gun_user_is setFriends]. rewrite Hme.
  rewrite subscriptions_on_attach.
  destruct (String.eqb_spec (getPrivateRoomId (is_pub me) id) roomId)
    as [->|Hne].
  - rewrite decide_True by reflexivity. reflexivity.
  - rewrite decide_False by congruence. reflexivity.
Qed.

Lemma find_pub_None (id : string) (l : list Friend) :
  Js.Array_find (fun f => (f_pub f =? id)%string) l = None ->
  filter (fun f => f_pub f = id) l = [].
Proof.
  unfold Js.Array_find. induction l as [|f l IH]; cbn [List.find]; [reflexivity|].
  destruct (String.eqb_spec (f_pub f) id) as [_|Hne]; [discriminate|].
  intros H. rewrite filter_cons, decide_False by exact Hne. apply IH, H.
Qed.

Lemma friendsHandler_entries (key : string) (data : option FriendData)
  (id : string) (st : AppState) :
  (entries_for key st <= 1)%nat ->
  (entries_for key (friendsHandler data id st) <= 1)%nat.
Proof.
  intros Hle. unfold friendsHandler. destruct data as [d|]; [|exact Hle].
  destruct (fd_status d =? "friend")%string; [|exact Hle].
  assert (Hfr : (entries_for key
            (setFriends (fun prev =>
               match Js.Array_find (fun f => (f_pub f =? id)%string) prev with
               | Some _ => prev
               | None => (prev ++ [friend_of d id])%list
               end) st) <= 1)%nat).
  { unfold entries_for in *. cbn [friends setFriends].
    destruct (Js.Array_find _ (friends st)) eqn:Hf; [exact Hle|].
    rewrite filter_app, length_app, filter_cons, filter_nil.
    cbn [f_pub friend_of]. destruct (decide (id = key)) as [->|Hne].
    - rewrite (find_pub_None _ _ Hf). cbn. lia.
    - cbn. lia. }
  cbn [gun_user_is setFriends] in *. destruct (gun_user_is st); exact Hfr.
Qed.

Lemma friend_stream_entries (key : string)
  (evs : list (option FriendData * string)) (st : AppState) :
  (entries_for key st <= 1)%nat ->
  (entries_for key (handle_friend_stream evs st) <= 1)%nat.
Proof.
  unfold handle_friend_stream. revert st.
  induction evs as [|e evs IH]; intros st Hle; cbn [foldl]; [exact Hle|].
  apply IH, friendsHandler_entries, Hle.
Qed.

Lemma friend_stream_subscriptions (me : Identity) (roomId : string)
  (evs : list (option FriendData * string)) (st : AppState) :
  gun_user_is st = Some me ->
  subscriptions_on roomId (handle_friend_stream evs st) =
    (subscriptions_on roomId st
     + length (List.filter (opens_room me roomId) evs))%nat.
Proof.
  unfold handle_friend_stream. revert st.
  induction evs as [|[data id] evs IH]; intros st Hme;
    cbn [foldl List.filter fst snd length]; [lia|].
  rewrite IH by (rewrite friendsHandler_user_is; exact Hme).
  rewrite (friendsHandler_subscriptions me) by exact Hme.
  destruct (opens_room me roomId (data, id)); cbn [length]; lia.
Qed.

End Registry.

(** C1, as stated, fails: with a session open, the friend event for one
    key delivered twice leaves two callbacks on that friend's room path,
    next to the single entry of the registry. *)
Lemma repeated_friend_event_subscribes_twice :
  let ev := Deliver (EvFriend (Some bob_record) "PUBB") in
  let st := run [ev; ev] (mounted (Some alice)) in
  subscriptions_on (GunService.getPrivateRoomId "PUBA" "PUBB") st = 2%nat
  /\ subscriptions_on (GunService.getPrivateRoomId "PUBA" "PUBB") st <> 1%nat
  /\ entries_for "PUBB" st = 1%nat.
Proof. cbv zeta. split; [|split]; [reflexivity | discriminate | reflexivity]. Qed.

(** C1, amended. While a session is open, every friend event with status
    ['friend'] attaches one more callback to its room path: after a friend
    stream, the callbacks on a room are those that were there plus one per
    event resolving to the room; the registry keeps at most one entry per
    key. *)
Theorem friend_events_subscribe_each_time (me : Identity) (roomId key : string)
  (evs : list (option FriendData * string)) (st : AppState) :
  gun_user_is st = Some me ->
  (entries_for key st <= 1)%nat ->
  subscriptions_on roomId (handle_friend_stream evs st) =
    (subscriptions_on roomId st
     + length (List.filter (opens_room me roomId) evs))%nat
  /\ (entries_for key (handle_friend_stream evs st) <= 1)%nat.
Proof.
  intros Hme Hle. split.
  - apply friend_stream_subscriptions, Hme.
  - apply friend_stream_entries, Hle.
Qed.

Lemma friend_events_subscribe_each_time_witness :
  let evs := repeat (Some bob_record, "PUBB") 3 in
  let st := handle_friend_stream evs (mounted (Some alice)) in
  subscriptions_on "PUBA_PUBB" st = 3%nat /\ (entries_for "PUBB" st <= 1)%nat.
Proof.
  exact (friend_events_subscribe_each_time alice "PUBA_PUBB" "PUBB"
           (repeat (Some bob_record, "PUBB") 3) (mounted (Some alice))
           eq_refl (le_S _ _ (le_n 0))).
Defined.

(** C10. An entry that [friendsHandler] adds to the registry has the key of
    the event as its [pub], whatever [pub] the value of the event carries;
    so every entry has the key under which it arrived. *)
Theorem friend_entry_pub_is_event_key (data : option FriendData) (id : string)
  (st : AppState) (f : Friend) :
  In f (friends (App.friendsHandler data id st)) ->
  In f (friends st) \/ f_pub f = id.
Proof.
  unfold App.friendsHandler. destruct data as [d|]; [|auto].
  destruct (fd_status d =? "friend")%string; [|auto].
  cbn [gun_user_is setFriends].
  assert (H : In f (match Js.Array_find (fun f0 => (f_pub f0 =? id)%string)
                            (friends st) with
                    | Some _ => friends st
                    | None => (friends st ++ [App.friend_of d id])%list
                    end) -> In f (friends st) \/ f_pub f = id).
  { destruct (Js.Array_find _ _); [auto|].
    rewrite in_app_iff. intros [H|[<-|[]]]; auto. }
  destruct (gun_user_is st); exact H.
Qed.

Lemma friend_entry_pub_is_event_key_witness :
  let st := App.friendsHandler (Some bob_record) "PUBB" (mounted (Some alice)) in
  friends st = [mkFriend "PUBB" "bob" "friend" None]
  /\ (In (mkFriend "PUBB" "bob" "friend" None) (friends (mounted (Some alice)))
      \/ f_pub (mkFriend "PUBB" "bob" "friend" None) = "PUBB").
Proof.
  split; [reflexivity|].
  apply (friend_entry_pub_is_event_key (Some bob_record) "PUBB"
           (mounted (Some alice)) (mkFriend "PUBB" "bob" "friend" None)).
  left. reflexivity.
Defined.

(** ** Commands: sending, adding a friend, logging out *)
Section Commands.

Import App GunService.

Lemma truthy_trim_nonempty (s : string) :
  Js.truthy (Js.String_trim s) = true -> s <> "".
Proof. intros H ->. discriminate H. Qed.

Lemma handleAddFriend_rejected (st : AppState) :
  friendIdInput st = "" \/ friendAliasInput st = "" ->
  handleAddFriend st = st.
Proof.
  unfold handleAddFriend. intros [-> | ->].
  - reflexivity.
  - rewrite orb_true_r. reflexivity.
Qed.

Lemma run_listener_writes (l : Listener) (e : StoreEvent) (st : AppState) :
  gun_writes (run_listener l e st) = gun_writes st.
Proof.
  destruct l, e; cbn [run_listener]; try reflexivity.
  - unfold aliasListener.
    destruct alias as [a|], (gun_user_is st); try destruct (Js.truthy a);
      reflexivity.
  - unfold globalChatListener.
    destruct data; [destruct (accepted_text _)|]; reflexivity.
  - unfold friendsHandler. destruct data as [d|]; [|reflexivity].
    destruct (fd_status d =? "friend")%string; [|reflexivity].
    cbn [gun_user_is setFriends]. destruct (gun_user_is st); reflexivity.
  - destruct (decide _); [|reflexivity]. unfold privateRoomListener.
    destruct msg; [destruct (accepted_text _)|]; reflexivity.
Qed.

Lemma deliver_writes (e : StoreEvent) (st : AppState) :
  gun_writes (deliver e st) = gun_writes st.
Proof.
  unfold deliver. generalize (gun_listeners st) as ls. intros ls. revert st.
  induction ls as [|l ls IH]; intros st; cbn [foldl]; [reflexivity|].
  rewrite IH. apply run_listener_writes.
Qed.

Lemma effect_writes (st : AppState) : gun_writes (effect st) = gun_writes st.
Proof.
  unfold effect. cbn [gun_user_is attach with_listeners].
  destruct (gun_user_is st); reflexivity.
Qed.

Lemma friend_writes_valid_frame (st st' : AppState) :
  gun_writes st' = gun_writes st ->
  friend_writes_valid st -> friend_writes_valid st'.
Proof. unfold friend_writes_valid. intros ->. auto. Qed.

Lemma friend_writes_valid_emit (w : Write) (st : AppState) :
  (forall key r, w = UserPutFriend key r ->
     key <> "" /\ fd_pub r <> "" /\ fd_alias r <> "") ->
  friend_writes_valid st -> friend_writes_valid (emit w st).
Proof.
  intros Hw Hv key r. unfold emit. cbn [gun_writes with_writes].
  rewrite in_app_iff. intros [Hin|[Heq|[]]]; [apply Hv, Hin | apply Hw, Heq].
Qed.

Lemma handleAddFriend_writes_valid (st : AppState) :
  friend_writes_valid st -> friend_writes_valid (handleAddFriend st).
Proof.
  intros Hv. unfold handleAddFriend.
  destruct (Js.truthy (Js.String_trim (friendIdInput st))) eqn:Hid;
    [|exact Hv].
  destruct (Js.truthy (Js.String_trim (friendAliasInput st))) eqn:Hal;
    [|exact Hv].
  cbn [negb orb]. apply truthy_trim_nonempty in Hid, Hal.
  eapply friend_writes_valid_frame with (st := addFriend _ _ st);
    [reflexivity|].
  unfold addFriend. destruct (gun_user_is st); [|exact Hv].
  apply friend_writes_valid_emit; [|exact Hv].
  intros key r [= <- <-]. cbn. auto.
Qed.

Lemma perform_writes_valid (a : Action) (st : AppState) :
  friend_writes_valid st -> friend_writes_valid (perform a st).
Proof.
  destruct a; cbn [perform]; try apply handleAddFriend_writes_valid;
    try (apply friend_writes_valid_frame; reflexivity).
  - apply friend_writes_valid_frame, deliver_writes.
  - intros Hv. unfold handleSendMessage. destruct (gun_user_is st); [|exact Hv].
    apply friend_writes_valid_emit; [discriminate | exact Hv].
  - intros Hv. unfold handleSendPrivateMessage.
    destruct (gun_user_is st), (selectedFriend st); try exact Hv.
    apply friend_writes_valid_emit; [discriminate | exact Hv].
Qed.

Lemma step_writes_valid (a : Action) (st : AppState) :
  friend_writes_valid st -> friend_writes_valid (step a st).
Proof.
  intros Hv. unfold step, commit, effect_cleanup.
  destruct (Bool.eqb _ _); [apply perform_writes_valid, Hv|].
  eapply friend_writes_valid_frame; [apply effect_writes|].
  apply perform_writes_valid, Hv.
Qed.

Lemma run_writes_valid (acts : list Action) (st : AppState) :
  friend_writes_valid st -> friend_writes_valid (run acts st).
Proof.
  unfold run. revert st.
  induction acts as [|a acts IH]; intros st Hv; cbn [foldl]; [exact Hv|].
  apply IH, step_writes_valid, Hv.
Qed.

Lemma mounted_writes_valid (restored : option Identity) :
  friend_writes_valid (mounted restored).
Proof.
  unfold mounted. eapply friend_writes_valid_frame; [apply effect_writes|].
  intros key r [].
Qed.

(** *** Callbacks are only ever added *)

Lemma listeners_kept_refl (st : AppState) : listeners_kept st st.
Proof. exists []. symmetry. apply app_nil_r. Qed.

Lemma listeners_kept_trans (st1 st2 st3 : AppState) :
  listeners_kept st1 st2 -> listeners_kept st2 st3 -> listeners_kept st1 st3.
Proof.
  intros [m1 H1] [m2 H2]. exists (m1 ++ m2)%list.
  rewrite H2, H1. symmetry. apply app_assoc.
Qed.

Lemma listeners_kept_same (st st' : AppState) :
  gun_listeners st' = gun_listeners st -> listeners_kept st st'.
Proof. intros H. exists []. rewrite H. symmetry. apply app_nil_r. Qed.

Lemma listeners_kept_attach (l : Listener) (st : AppState) :
  listeners_kept st (attach l st).
Proof. exists [l]. reflexivity. Qed.

Lemma run_listener_kept (l : Listener) (e : StoreEvent) (st : AppState) :
  listeners_kept st (run_listener l e st).
Proof.
  destruct l, e; cbn [run_listener]; try apply listeners_kept_refl.
  - apply listeners_kept_same. unfold aliasListener.
    destruct alias as [a|], (gun_user_is st); try destruct (Js.truthy a);
      reflexivity.
  - apply listeners_kept_same. unfold globalChatListener.
    destruct data; [destruct (accepted_text _)|]; reflexivity.
  - unfold friendsHandler. destruct data as [d|]; [|apply listeners_kept_refl].
    destruct (fd_status d =? "friend")%string; [|apply listeners_kept_refl].
    cbn [gun_user_is setFriends]. destruct (gun_user_is st).
    + exists [OnPrivateRoom (getPrivateRoomId (is_pub i) id)]. reflexivity.
    + apply listeners_kept_same. reflexivity.
  - destruct (decide _); [|apply listeners_kept_refl].
    apply listeners_kept_same. unfold privateRoomListener.
    destruct msg; [destruct (accepted_text _)|]; reflexivity.
Qed.

Lemma deliver_kept (e : StoreEvent) (st : AppState) :
  listeners_kept st (deliver e st).
Proof.
  unfold deliver. generalize (gun_listeners st) as ls. intros ls. revert st.
  induction ls as [|l ls IH]; intros st; cbn [foldl];
    [apply listeners_kept_refl|].
  eapply listeners_kept_trans; [apply run_listener_kept | apply IH].
Qed.

Lemma effect_kept (st : AppState) : listeners_kept st (effect st).
Proof.
  unfold effect. cbn [gun_user_is attach with_listeners].
  destruct (gun_user_is st).
  - exists [OnAlias; OnGlobalChat; OnFriends]. cbn.
    rewrite <- !app_assoc. reflexivity.
  - exists [OnAlias; OnGlobalChat]. cbn.
    rewrite <- !app_assoc. reflexivity.
Qed.

Lemma perform_kept (a : Action) (st : AppState) :
  listeners_kept st (perform a st).
Proof.
  destruct a; cbn [perform]; try apply deliver_kept;
    apply listeners_kept_same; try reflexivity.
  - unfold handleSendMessage. destruct (gun_user_is st); reflexivity.
  - unfold handleSendPrivateMessage.
    destruct (gun_user_is st), (selectedFriend st); reflexivity.
  - unfold handleAddFriend, addFriend. destruct (_ || _); [reflexivity|].
    destruct (gun_user_is st); reflexivity.
Qed.

Lemma step_kept (a : Action) (st : AppState) : listeners_kept st (step a st).
Proof.
  unfold step, commit, effect_cleanup. destruct (Bool.eqb _ _).
  - apply perform_kept.
  - eapply listeners_kept_trans; [apply perform_kept | apply effect_kept].
Qed.

Lemma run_kept (acts : list Action) (st : AppState) :
  listeners_kept st (run acts st).
Proof.
  unfold run. revert st.
  induction acts as [|a acts IH]; intros st; cbn [foldl];
    [apply listeners_kept_refl|].
  eapply listeners_kept_trans; [apply step_kept | apply IH].
Qed.

End Commands.

(** C7. With an empty public key or an empty alias in the dialog,
    [handleAddFriend] returns at its guard: the state is untouched, so
    [auth.addFriend] is not called and nothing is written; and along a
    whole session no friend record with an empty key or alias is written. *)
Theorem addFriend_rejects_empty (st : AppState) :
  friendIdInput st = "" \/ friendAliasInput st = "" ->
  App.handleAddFriend st = st
  /\ gun_writes (App.handleAddFriend st) = gun_writes st
  /\ forall restored acts, friend_writes_valid (run acts (mounted restored)).
Proof.
  intros H. rewrite (handleAddFriend_rejected st H).
  split; [reflexivity | split; [reflexivity|]].
  intros restored acts. apply run_writes_valid, mounted_writes_valid.
Qed.

Lemma addFriend_rejects_empty_witness :
  let st := run [TypeFriendId ""; TypeFriendAlias "alice"] (mounted (Some alice)) in
  (friendIdInput st = "" \/ friendAliasInput st = "")
  /\ step AddFriend st = st
  /\ gun_writes (step AddFriend st) = [].
Proof.
  intros st.
  assert (H : friendIdInput st = "" \/ friendAliasInput st = "")
    by (left; reflexivity).
  destruct (addFriend_rejects_empty st H) as (Hst & Hw & _).
  split; [exact H|]. split.
  - unfold step, perform. rewrite Hst. reflexivity.
  - unfold step, perform. rewrite Hst. reflexivity.
Defined.

(** C9. Without a session ([gunUser.is] absent) a send, global or private,
    through the handlers of [App] or through the service functions, returns
    at its guard: nothing is written and the state is unchanged. *)
Theorem send_without_session_is_noop (text friendPub : string) (now : Z)
  (st : AppState) :
  gun_user_is st = None ->
  App.handleSendMessage text now st = st
  /\ App.handleSendPrivateMessage text now st = st
  /\ GunService.sendMessage text now st = st
  /\ GunService.sendPrivateMessage friendPub text now st = st.
Proof.
  intros H.
  unfold App.handleSendMessage, App.handleSendPrivateMessage,
    GunService.sendMessage, GunService.sendPrivateMessage.
  rewrite H. auto.
Qed.

Lemma send_without_session_is_noop_witness :
  gun_user_is (mounted None) = None
  /\ App.handleSendMessage "hi" 1000 (mounted None) = mounted None
  /\ App.handleSendPrivateMessage "hi" 1000 (mounted None) = mounted None
  /\ GunService.sendMessage "hi" 1000 (mounted None) = mounted None
  /\ GunService.sendPrivateMessage "PUBB" "hi" 1000 (mounted None) = mounted None.
Proof.
  split; [reflexivity|].
  apply (send_without_session_is_noop "hi" "PUBB" 1000 (mounted None)).
  reflexivity.
Defined.

(** C8, as stated, fails. A session of alice with one friend is logged out:
    the callbacks of the global room, of the friend stream and of the
    friend's private room are all still attached; a message arriving on the
    private room afterwards still enters its list; and when carol
    authenticates next, alice's private-room callback is among hers. *)
Lemma logout_leaves_subscriptions_open :
  let room := GunService.getPrivateRoomId "PUBA" "PUBB" in
  let st := run [Deliver (EvAlias (Some "alice"));
                 Deliver (EvFriend (Some bob_record) "PUBB")]
              (mounted (Some alice)) in
  let out := step Logout st in
  let late := step (Deliver (EvPrivate room (Some hello) "m1")) out in
  let next := run [ProviderAuth carol; Deliver (EvAlias (Some "carol"))] out in
  gun_user_is out = None
  /\ gun_listeners out <> []
  /\ In OnGlobalChat (gun_listeners out)
  /\ In OnFriends (gun_listeners out)
  /\ In (OnPrivateRoom room) (gun_listeners out)
  /\ room_messages (PrivateRoom room) out = []
  /\ map m_id (room_messages (PrivateRoom room) late) = ["m1"]
  /\ isAuthenticated next = true
  /\ currentPub next = "PUBC"
  /\ In (OnPrivateRoom room) (gun_listeners next).
Proof.
  cbv zeta. vm_compute. repeat split; try discriminate; tauto.
Qed.

(** C8, amended. [handleLogout] ends the session at the identity provider
    and resets [isAuthenticated], [currentUser] and [currentPub]; it
    cancels no subscription. The cleanup of the effect does nothing, and
    whatever happens afterwards every callback stays attached, in place. *)
Theorem logout_cancels_no_subscription (st : AppState) :
  gun_user_is (App.handleLogout st) = None
  /\ isAuthenticated (App.handleLogout st) = false
  /\ currentUser (App.handleLogout st) = ""
  /\ currentPub (App.handleLogout st) = ""
  /\ gun_listeners (App.handleLogout st) = gun_listeners st
  /\ App.effect_cleanup st = st
  /\ listeners_kept st (step Logout st)
  /\ forall acts, listeners_kept st (run acts st).
Proof.
  repeat split; try reflexivity.
  - apply step_kept.
  - intros acts. apply run_kept.
Qed.

(** * Further properties of the code *)

(** ** What a session can change, and where *)
Section SessionFrames.

Import App GunService.

Lemma sort_insert_perm {A : Type} (cmp : A -> A -> Z) (x : A) (l : list A) :
  Permutation (Js.sort_insert cmp x l) (x :: l).
Proof.
  induction l as [|y l IH]; cbn [Js.sort_insert]; [reflexivity|].
  destruct (cmp x y <=? 0); [reflexivity|].
  rewrite IH. apply perm_swap.
Qed.

Lemma Array_sort_perm {A : Type} (cmp : A -> A -> Z) (l : list A) :
  Permutation (Js.Array_sort cmp l) l.
Proof.
  induction l as [|x l IH]; cbn [Js.Array_sort foldr]; [reflexivity|].
  rewrite sort_insert_perm. apply perm_skip, IH.
Qed.

(** What one application of a room callback does to the list of a room:
    nothing, or one [merge_message]. *)
Lemma on_room_event_cases (r' r : Room) (data : option MessageData)
  (key : string) (st : AppState) :
  room_messages r (on_room_event r' data key st) = room_messages r st
  \/ exists m, m_id m = key
       /\ room_messages r (on_room_event r' data key st)
          = merge_message m (room_messages r st).
Proof.
  destruct (accepted_text data) as [text|] eqn:Hacc;
    [|left; rewrite on_room_event_rejected by exact Hacc; reflexivity].
  destruct data as [d|]; [|discriminate Hacc].
  destruct r' as [|roomId]; cbn [on_room_event].
  - rewrite (globalChatListener_accepted _ _ _ _ Hacc).
    destruct (decide _); [right; eexists; split; [|reflexivity]; reflexivity
                         | left; reflexivity].
  - rewrite (privateRoomListener_accepted _ _ _ _ _ Hacc).
    destruct (decide _); [right; eexists; split; [|reflexivity]; reflexivity
                         | left; reflexivity].
Qed.

Lemma run_listener_rooms_cases (l : Listener) (e : StoreEvent) (st : AppState) :
  (forall r, room_messages r (run_listener l e st) = room_messages r st)
  \/ exists r' data key, run_listener l e st = on_room_event r' data key st.
Proof.
  destruct l, e; cbn [run_listener]; try (left; reflexivity).
  - left. apply aliasListener_rooms.
  - right. exists GlobalRoom, data, id. reflexivity.
  - left. apply friendsHandler_rooms.
  - destruct (decide _); [|left; reflexivity].
    right. exists (PrivateRoom roomId), msg, msgId. reflexivity.
Qed.

Lemma run_listener_friends_cases (l : Listener) (e : StoreEvent)
  (st : AppState) :
  friends (run_listener l e st) = friends st
  \/ exists data id, run_listener l e st = friendsHandler data id st.
Proof.
  destruct l, e; cbn [run_listener]; try (left; reflexivity).
  - left. unfold aliasListener.
    destruct alias as [a|], (gun_user_is st); try destruct (Js.truthy a);
      reflexivity.
  - left. unfold globalChatListener.
    destruct data; [destruct (accepted_text _)|]; reflexivity.
  - right. eauto.
  - destruct (decide _); [|left; reflexivity]. left.
    unfold privateRoomListener.
    destruct msg; [destruct (accepted_text _)|]; reflexivity.
Qed.

(** The handlers of [App] and its effect touch neither the message lists
    nor the registry. *)
Lemma perform_ui_data (a : Action) (st : AppState) :
  (forall e, a <> Deliver e) ->
  friends (perform a st) = friends st
  /\ forall r, room_messages r (perform a st) = room_messages r st.
Proof.
  intros Hnd. destruct a; cbn [perform].
  - destruct (Hnd e eq_refl).
  - split; [|intros []]; reflexivity.
  - unfold handleSendMessage. destruct (gun_user_is st);
      (split; [|intros []]; reflexivity).
  - unfold handleSendPrivateMessage.
    destruct (gun_user_is st), (selectedFriend st);
      (split; [|intros []]; reflexivity).
  - split; [|intros []]; reflexivity.
  - split; [|intros []]; reflexivity.
  - split; [|intros []]; reflexivity.
  - split; [|intros []]; reflexivity.
  - unfold handleAddFriend, addFriend.
    destruct (_ || _); [split; [|intros []]; reflexivity|].
    destruct (gun_user_is st); (split; [|intros []]; reflexivity).
  - split; [|intros []]; reflexivity.
Qed.

Lemma effect_friends (st : AppState) : friends (effect st) = friends st.
Proof.
  unfold effect. cbn [gun_user_is attach with_listeners].
  destruct (gun_user_is st); reflexivity.
Qed.

(** A property of the state kept by every callback, by every handler and
    by the effect is kept along a session. *)
Lemma run_invariant (P : AppState -> Prop) :
  (forall l e st, P st -> P (run_listener l e st)) ->
  (forall a st, (forall e, a <> Deliver e) -> P st -> P (perform a st)) ->
  (forall st, P st -> P (effect st)) ->
  forall acts st, P st -> P (run acts st).
Proof.
  intros Hl Hp He. unfold run.
  induction acts as [|a acts IH]; intros st HP; cbn [foldl]; [exact HP|].
  apply IH. unfold step, commit, effect_cleanup.
  assert (HP' : P (perform a st)).
  { destruct a; try (apply Hp; [discriminate | exact HP]).
    cbn [perform]. unfold deliver.
    generalize (gun_listeners st) as ls. intros ls. revert st HP.
    induction ls as [|l ls IHls]; intros st HP; cbn [foldl]; [exact HP|].
    apply IHls, Hl, HP. }
  destruct (Bool.eqb _ _); [exact HP' | apply He, HP'].
Qed.

Lemma run_room_invariant (r : Room) (Q : list Message -> Prop) :
  (forall m l, Q l -> Q (merge_message m l)) ->
  forall acts st, Q (room_messages r st) -> Q (room_messages r (run acts st)).
Proof.
  intros Hm acts st.
  apply (run_invariant (fun s => Q (room_messages r s))).
  - intros l e s HQ.
    destruct (run_listener_rooms_cases l e s) as [->|(r' & data & key & ->)];
      [exact HQ|].
    destruct (on_room_event_cases r' r data key s) as [->|(m & _ & ->)];
      [exact HQ | apply Hm, HQ].
  - intros a s Hnd HQ. rewrite (proj2 (perform_ui_data a s Hnd)). exact HQ.
  - intros s HQ. rewrite effect_rooms. exact HQ.
Qed.

Lemma run_friends_invariant (Q : list Friend -> Prop) :
  (forall data id st, Q (friends st) -> Q (friends (friendsHandler data id st))) ->
  forall acts st, Q (friends st) -> Q (friends (run acts st)).
Proof.
  intros Hf acts st.
  apply (run_invariant (fun s => Q (friends s))).
  - intros l e s HQ.
    destruct (run_listener_friends_cases l e s) as [->|(data & id & ->)];
      [exact HQ | apply Hf, HQ].
  - intros a s Hnd HQ. rewrite (proj1 (perform_ui_data a s Hnd)). exact HQ.
  - intros s HQ. rewrite effect_friends. exact HQ.
Qed.

(** The registry after [friendsHandler]: as before, or one entry more. *)
Lemma friendsHandler_friends (data : option FriendData) (id : string)
  (st : AppState) :
  friends (friendsHandler data id st) = friends st
  \/ exists d, data = Some d /\ fd_status d = "friend"
       /\ Js.Array_find (fun f => (f_pub f =? id)%string) (friends st) = None
       /\ friends (friendsHandler data id st)
          = (friends st ++ [friend_of d id])%list.
Proof.
  unfold friendsHandler. destruct data as [d|]; [|left; reflexivity].
  destruct (String.eqb_spec (fd_status d) "friend") as [Hs|_];
    [|left; reflexivity].
  cbn [gun_user_is setFriends].
  destruct (Js.Array_find _ (friends st)) eqn:Hf.
  - left. destruct (gun_user_is st); cbn; rewrite Hf; reflexivity.
  - right. exists d. repeat split; try assumption.
    destruct (gun_user_is st); cbn; rewrite Hf; reflexivity.
Qed.

Lemma find_pub_None_not_in (id : string) (l : list Friend) :
  Js.Array_find (fun f => (f_pub f =? id)%string) l = None ->
  ~ In id (map f_pub l).
Proof.
  unfold Js.Array_find. intros Hf Hin. apply in_map_iff in Hin as (f & Hp & Hin).
  apply (List.find_none _ _ Hf) in Hin.
  rewrite Hp, String.eqb_refl in Hin. discriminate.
Qed.

Lemma merge_message_nodup (m : Message) (l : list Message) :
  NoDup (map m_id l) -> NoDup (map m_id (merge_message m l)).
Proof.
  intros Hnd. unfold merge_message.
  destruct (Js.Array_find _ l) eqn:Hf; [exact Hnd|].
  rewrite (Permutation_map m_id (Array_sort_perm by_time_desc (m :: l))).
  cbn [map]. apply NoDup_cons_2; [|exact Hnd].
  rewrite list_elem_of_In. intros Hin.
  apply in_map_iff in Hin as (x & Hid & Hin).
  apply (List.find_none _ _ Hf) in Hin.
  rewrite Hid, String.eqb_refl in Hin. discriminate.
Qed.

Lemma merge_message_keeps (m x : Message) (l : list Message) :
  In x l -> In x (merge_message m l).
Proof.
  intros Hin. unfold merge_message.
  destruct (Js.Array_find _ l); [exact Hin|].
  apply in_Array_sort. right. exact Hin.
Qed.

End SessionFrames.

(** X1. Along any session the registry never holds two entries with the
    same public key. *)
Theorem registry_keys_unique (restored : option Identity) (acts : list Action) :
  NoDup (map f_pub (friends (run acts (mounted restored)))).
Proof.
  apply (run_friends_invariant (fun l => NoDup (map f_pub l))).
  - intros data id st Hnd.
    destruct (friendsHandler_friends data id st) as [->|(d & _ & _ & Hf & ->)];
      [exact Hnd|].
    rewrite map_app. cbn [map App.friend_of f_pub].
    apply NoDup_app. split; [exact Hnd|]. split; [|apply NoDup_singleton].
    intros x Hx Hx'. apply list_elem_of_In in Hx.
    apply list_elem_of_singleton in Hx'. subst x.
    exact (find_pub_None_not_in _ _ Hf Hx).
  - unfold mounted. rewrite effect_friends. constructor.
Qed.

(** X2. Along any session no room, global or private, holds two messages
    with the same id. *)
Theorem room_ids_unique (restored : option Identity) (acts : list Action)
  (r : Room) :
  NoDup (map m_id (room_messages r (run acts (mounted restored)))).
Proof.
  apply (run_room_invariant r (fun l => NoDup (map m_id l))).
  - apply merge_message_nodup.
  - unfold mounted. rewrite effect_rooms.
    destruct r; cbn; [|rewrite lookup_empty]; constructor.
Qed.

(** X3. An event with a text and a key the room has not seen adds exactly
    its message: the new list is a rearrangement of the message, with the
    key as id and the fields of the value, put with the old list; the
    lists of the other rooms are the same. *)
Theorem accepted_event_adds_its_message (r : Room) (d : MessageData)
  (text key : string) (st : AppState) :
  App.accepted_text (Some d) = Some text ->
  ~ has_id key (room_messages r st) ->
  Permutation (room_messages r (on_room_event r (Some d) key st))
    (mkMessage key text (md_user d) (md_pub d) (md_time d)
       :: room_messages r st)
  /\ forall r', r' <> r ->
       room_messages r' (on_room_event r (Some d) key st) = room_messages r' st.
Proof.
  intros Hacc Hnew.
  assert (Hm : forall l, ~ has_id key l ->
            Permutation (App.merge_message (App.message_of d text key) l)
              (App.message_of d text key :: l)).
  { intros l Hl. unfold App.merge_message. cbn [m_id App.message_of].
    rewrite (find_id_None _ _ Hl). apply Array_sort_perm. }
  destruct r as [|roomId]; cbn [on_room_event]; split.
  - rewrite (globalChatListener_accepted _ _ _ _ Hacc).
    rewrite decide_True by reflexivity. apply Hm, Hnew.
  - intros r' Hne. rewrite (globalChatListener_accepted _ _ _ _ Hacc).
    rewrite decide_False by exact Hne. reflexivity.
  - rewrite (privateRoomListener_accepted _ _ _ _ _ Hacc).
    rewrite decide_True by reflexivity. apply Hm, Hnew.
  - intros r' Hne. rewrite (privateRoomListener_accepted _ _ _ _ _ Hacc).
    rewrite decide_False by exact Hne. reflexivity.
Qed.

Lemma accepted_event_adds_its_message_witness :
  Permutation
    (room_messages GlobalRoom
       (on_room_event GlobalRoom (Some hello) "m1" (mounted None)))
    [mkMessage "m1" "hello" "alice" "PUBA" (Some 1000)].
Proof.
  apply (accepted_event_adds_its_message GlobalRoom hello "hello" "m1"
           (mounted None)).
  - reflexivity.
  - intros (m & [] & _).
Defined.

(** X4. Messages are never removed or rewritten: a message that is in a
    room's list is in it, unchanged, after anything the session does. *)
Theorem messages_are_kept (r : Room) (m : Message) (acts : list Action)
  (st : AppState) :
  In m (room_messages r st) -> In m (room_messages r (run acts st)).
Proof.
  apply (run_room_invariant r (fun l => In m l)).
  intros m' l. apply merge_message_keeps.
Qed.

Lemma messages_are_kept_witness :
  let st := on_room_event GlobalRoom (Some hello) "m1" (mounted None) in
  let edit := mkMessageData (Some "edited") "mallory" "PUBM" (Some 5) in
  In (mkMessage "m1" "hello" "alice" "PUBA" (Some 1000))
    (room_messages GlobalRoom
       (run [Deliver (EvGlobal (Some edit) "m1"); Logout] st)).
Proof.
  apply (messages_are_kept GlobalRoom (mkMessage "m1" "hello" "alice" "PUBA" (Some 1000))).
  left. reflexivity.
Defined.

(** X5. The registry only grows at its end: whatever the session does,
    the entries it had stay as they were and where they were, so a later
    event for a registered key does not change its alias. *)
Theorem registry_only_grows (acts : list Action) (st : AppState) :
  exists more, friends (run acts st) = (friends st ++ more)%list.
Proof.
  apply (run_friends_invariant
           (fun l => exists more, l = (friends st ++ more)%list)).
  - intros data id s [more Hs].
    destruct (friendsHandler_friends data id s) as [->|(d & _ & _ & _ & ->)].
    + exists more. exact Hs.
    + exists (more ++ [App.friend_of d id])%list. rewrite Hs.
      symmetry. apply app_assoc.
  - exists []. symmetry. apply app_nil_r.
Qed.

(** ** Delivery to callbacks attached more than once *)
Section Delivery.

Import App GunService.

Lemma on_room_event_twice (r : Room) (data : option MessageData)
  (key : string) (st : AppState) :
  on_room_event r data key (on_room_event r data key st)
  = on_room_event r data key st.
Proof.
  destruct (accepted_text data) as [text|] eqn:Hacc.
  - destruct data as [d|]; [|discriminate Hacc].
    apply on_room_event_present. eapply on_room_event_has_id, Hacc.
  - rewrite !on_room_event_rejected by exact Hacc. reflexivity.
Qed.

Lemma run_listener_room_event (l : Listener) (r : Room)
  (data : option MessageData) (key : string) (st : AppState) :
  run_listener l (room_event r data key) st =
    if decide (l = room_listener r) then on_room_event r data key st else st.
Proof.
  destruct l, r as [|roomId']; cbn [run_listener room_event room_listener
                                     on_room_event];
    try (rewrite decide_False by discriminate; reflexivity).
  - rewrite decide_True by reflexivity. reflexivity.
  - destruct (decide (roomId = roomId')) as [->|Hne].
    + rewrite decide_True by reflexivity. reflexivity.
    + rewrite decide_False by congruence. reflexivity.
Qed.

Lemma foldl_room_event (r : Room) (data : option MessageData) (key : string)
  (ls : list Listener) (st : AppState) :
  foldl (fun s l => run_listener l (room_event r data key) s) st ls =
    if decide (room_listener r ∈ ls) then on_room_event r data key st else st.
Proof.
  revert st. induction ls as [|l ls IH]; intros st; cbn [foldl].
  - rewrite decide_False by apply not_elem_of_nil. reflexivity.
  - rewrite IH, run_listener_room_event.
    destruct (decide (l = room_listener r)) as [->|Hne].
    + rewrite (decide_True (P := _ ∈ _ :: _)) by apply list_elem_of_here.
      destruct (decide _); [apply on_room_event_twice | reflexivity].
    + destruct (decide (room_listener r ∈ ls)) as [Hin|Hnin].
      * rewrite decide_True by (apply list_elem_of_further, Hin). reflexivity.
      * rewrite decide_False; [reflexivity|].
        intros [Heq|Hin]%elem_of_cons; [congruence | exact (Hnin Hin)].
Qed.

Lemma deliver_room_event_attached (r : Room) (data : option MessageData)
  (key : string) (st : AppState) :
  In (room_listener r) (gun_listeners st) ->
  deliver (room_event r data key) st = on_room_event r data key st.
Proof.
  intros Hin. unfold deliver. rewrite foldl_room_event.
  rewrite decide_True by (apply list_elem_of_In, Hin). reflexivity.
Qed.

Lemma room_id_swap (a b : string) : getPrivateRoomId a b = getPrivateRoomId b a.
Proof.
  rewrite !getPrivateRoomId_unfold, (String.compare_antisym b a).
  destruct (String.compare a b) eqn:Hc; cbn [CompOpp]; try reflexivity.
  apply String.compare_eq_iff in Hc. subst. reflexivity.
Qed.

Lemma friendsHandler_attaches (me : Identity) (d : FriendData) (id : string)
  (st : AppState) :
  gun_user_is st = Some me -> fd_status d = "friend" ->
  gun_listeners (friendsHandler (Some d) id st)
  = (gun_listeners st ++ [OnPrivateRoom (getPrivateRoomId (is_pub me) id)])%list.
Proof.
  intros Hme Hs. unfold friendsHandler. rewrite Hs, String.eqb_refl.
  cbn [gun_user_is setFriends]. rewrite Hme. reflexivity.
Qed.

Lemma friendsHandler_new_entry (d : FriendData) (id : string) (st : AppState) :
  fd_status d = "friend" ->
  ~ In id (map f_pub (friends st)) ->
  friends (friendsHandler (Some d) id st)
  = (friends st ++ [friend_of d id])%list.
Proof.
  intros Hs Hnew. unfold friendsHandler. rewrite Hs, String.eqb_refl.
  cbn [gun_user_is setFriends].
  assert (Hf : Js.Array_find (fun f => (f_pub f =? id)%string) (friends st)
               = None).
  { destruct (Js.Array_find _ (friends st)) as [x|] eqn:Hf; [|reflexivity].
    apply List.find_some in Hf as [Hin Hx]. apply String.eqb_eq in Hx.
    exfalso. apply Hnew, in_map_iff. exists x. auto. }
  destruct (gun_user_is st); cbn; rewrite Hf; reflexivity.
Qed.

Lemma in_room_after_accept (r : Room) (d : MessageData) (text key : string)
  (st : AppState) :
  accepted_text (Some d) = Some text ->
  ~ has_id key (room_messages r st) ->
  In (message_of d text key) (room_messages r (on_room_event r (Some d) key st)).
Proof.
  intros Hacc Hnew.
  assert (Hm : In (message_of d text key)
                 (merge_message (message_of d text key) (room_messages r st))).
  { unfold merge_message. cbn [m_id message_of].
    rewrite (find_id_None _ _ Hnew). apply in_Array_sort. left. reflexivity. }
  destruct r as [|roomId]; cbn [on_room_event].
  - rewrite (globalChatListener_accepted _ _ _ _ Hacc).
    rewrite decide_True by reflexivity. exact Hm.
  - rewrite (privateRoomListener_accepted _ _ _ _ _ Hacc).
    rewrite decide_True by reflexivity. exact Hm.
Qed.

Lemma accepted_as_delivered (p : Payload) :
  p_msg p <> "" -> accepted_text (Some (as_delivered p)) = Some (p_msg p).
Proof.
  intros Hne. unfold accepted_text, as_delivered. cbn [md_msg].
  destruct (p_msg p); [congruence | reflexivity].
Qed.

End Delivery.

(** X6. However many callbacks are attached to a room's path, an event on
    the path has the effect of one call of the room's callback; with none
    attached it has no effect. *)
Theorem deliver_room_event_once (r : Room) (data : option MessageData)
  (key : string) (st : AppState) :
  deliver (room_event r data key) st =
    if decide (room_listener r ∈ gun_listeners st)
    then on_room_event r data key st
    else st.
Proof. unfold deliver. apply foldl_room_event. Qed.

(** X7. Two sessions meet in one room. When A, with friend B selected,
    sends a text that is not empty, the write goes to the private path of
    one room; B's session, once it has handled the friend event for A's
    key, has a callback on that very room, and the payload arriving there
    under a fresh id puts A's message in B's list for the room. *)
Theorem private_message_reaches_friend (a b : Identity) (f : Friend)
  (d : FriendData) (text id : string) (now : Z) (stA stB : AppState) :
  gun_user_is stA = Some a -> selectedFriend stA = Some f ->
  f_pub f = is_pub b ->
  gun_user_is stB = Some b -> fd_status d = "friend" ->
  text <> "" ->
  let room := GunService.getPrivateRoomId (is_pub b) (is_pub a) in
  let p := mkPayload text (currentUser stA) (is_pub a) now in
  let stB' := App.friendsHandler (Some d) (is_pub a) stB in
  ~ has_id id (room_messages (PrivateRoom room) stB) ->
  gun_writes (App.handleSendPrivateMessage text now stA)
  = (gun_writes stA ++ [GunSet (GunService.privateChatPath room) p])%list
  /\ In (OnPrivateRoom room) (gun_listeners stB')
  /\ In (mkMessage id text (currentUser stA) (is_pub a) (Some now))
       (room_messages (PrivateRoom room)
          (deliver (EvPrivate room (Some (as_delivered p)) id) stB')).
Proof.
  intros Ha Hf Hfb Hb Hs Htext room p stB' Hnew.
  assert (Hl : In (OnPrivateRoom room) (gun_listeners stB')).
  { unfold stB'. rewrite (friendsHandler_attaches b) by assumption.
    apply in_app_iff. right. left. reflexivity. }
  split; [|split; [exact Hl|]].
  - unfold App.handleSendPrivateMessage. rewrite Ha, Hf, Hfb.
    unfold room. rewrite (room_id_swap (is_pub b)). reflexivity.
  - change (EvPrivate room (Some (as_delivered p)) id)
      with (room_event (PrivateRoom room) (Some (as_delivered p)) id).
    rewrite (deliver_room_event_attached (PrivateRoom room)) by exact Hl.
    apply (in_room_after_accept (PrivateRoom room) (as_delivered p) text id).
    + apply (accepted_as_delivered p). exact Htext.
    + unfold stB'. rewrite friendsHandler_rooms. exact Hnew.
Qed.

Lemma private_message_reaches_friend_witness :
  let bob := mkIdentity "PUBB" "bob" in
  let stA := setSelectedFriend (Some (mkFriend "PUBB" "bob" "friend" None))
               (mounted (Some alice)) in
  let stB := mounted (Some bob) in
  let stB' := App.friendsHandler (Some bob_record) "PUBA" stB in
  gun_writes (App.handleSendPrivateMessage "hi" 7 stA)
  = [GunSet ["ma-mesh-private-chats"; "PUBA_PUBB"] (mkPayload "hi" "" "PUBA" 7)]
  /\ In (OnPrivateRoom "PUBA_PUBB") (gun_listeners stB')
  /\ In (mkMessage "m1" "hi" "" "PUBA" (Some 7))
       (room_messages (PrivateRoom "PUBA_PUBB")
          (deliver (EvPrivate "PUBA_PUBB"
                      (Some (as_delivered (mkPayload "hi" "" "PUBA" 7))) "m1")
             stB')).
Proof.
  intros bob stA stB stB'.
  apply (private_message_reaches_friend alice bob
           (mkFriend "PUBB" "bob" "friend" None) bob_record "hi" "m1" 7
           stA stB); try reflexivity.
  - discriminate.
  - intros (m & Hin & _). vm_compute in Hin. exact Hin.
Defined.

(** X8. A friend added comes back as a friend. With a session and two
    inputs that are not blank, [handleAddFriend] writes one record under
    the key typed; that record, arriving on the friend stream under that
    key, passes the guard of [friendsHandler], which adds the entry with
    the key and the alias typed when the key is new, and subscribes to the
    room of the session and the key. *)
Theorem added_friend_round_trip (me : Identity) (st : AppState) :
  gun_user_is st = Some me ->
  Js.truthy (Js.String_trim (friendIdInput st)) = true ->
  Js.truthy (Js.String_trim (friendAliasInput st)) = true ->
  ~ In (friendIdInput st) (map f_pub (friends st)) ->
  let key := friendIdInput st in
  let r := mkFriendData key (friendAliasInput st) "friend" None in
  let st1 := App.handleAddFriend st in
  gun_writes st1 = (gun_writes st ++ [UserPutFriend key r])%list
  /\ friends (App.friendsHandler (Some r) key st1)
     = (friends st ++ [mkFriend key (friendAliasInput st) "friend" None])%list
  /\ gun_listeners (App.friendsHandler (Some r) key st1)
     = (gun_listeners st
        ++ [OnPrivateRoom (GunService.getPrivateRoomId (is_pub me) key)])%list.
Proof.
  intros Hme Hid Hal Hnew key r st1.
  assert (Hst1 : st1 = setShowAddFriend false (setFriendAliasInput ""
                   (setFriendIdInput "" (emit (UserPutFriend key r) st)))).
  { unfold st1, App.handleAddFriend, GunService.addFriend.
    rewrite Hid, Hal, Hme. reflexivity. }
  rewrite Hst1. split; [reflexivity|]. split.
  - rewrite friendsHandler_new_entry; [reflexivity | reflexivity | exact Hnew].
  - rewrite (friendsHandler_attaches me); [reflexivity | exact Hme | reflexivity].
Qed.

Lemma added_friend_round_trip_witness :
  let st := run [TypeFriendId "PUBB"; TypeFriendAlias "bob"]
              (mounted (Some alice)) in
  let r := mkFriendData "PUBB" "bob" "friend" None in
  gun_writes (App.handleAddFriend st) = [UserPutFriend "PUBB" r]
  /\ friends (App.friendsHandler (Some r) "PUBB" (App.handleAddFriend st))
     = [mkFriend "PUBB" "bob" "friend" None]
  /\ gun_listeners (App.friendsHandler (Some r) "PUBB" (App.handleAddFriend st))
     = [OnAlias; OnGlobalChat; OnFriends; OnPrivateRoom "PUBA_PUBB"].
Proof.
  intros st r.
  apply (added_friend_round_trip alice st); try reflexivity.
  intros [].
Defined.

(** ** Blank input *)
Section Blank.

Lemma trim_start_blank (s : string) :
  Js.trim_start s = "" <-> JsString.blank s = true.
Proof.
  induction s as [|c s IH]; cbn [Js.trim_start JsString.blank]; [tauto|].
  destruct (Js.is_white_space c); cbn [andb]; [exact IH|].
  split; discriminate.
Qed.

Lemma trim_start_head (s : string) :
  Js.trim_start s = ""
  \/ exists c t, Js.trim_start s = String c t /\ Js.is_white_space c = false.
Proof.
  induction s as [|c s IH]; cbn [Js.trim_start]; [left; reflexivity|].
  destruct (Js.is_white_space c) eqn:Hc; [exact IH|]. right. eauto.
Qed.

Lemma blank_rev_onto (s acc : string) :
  JsString.blank (Js.string_rev_onto s acc)
  = JsString.blank s && JsString.blank acc.
Proof.
  revert acc. induction s as [|c s IH]; intros acc;
    cbn [Js.string_rev_onto JsString.blank]; [reflexivity|].
  rewrite IH. cbn [JsString.blank].
  destruct (Js.is_white_space c), (JsString.blank s); reflexivity.
Qed.

Lemma blank_rev (s : string) :
  JsString.blank (Js.string_rev s) = JsString.blank s.
Proof. unfold Js.string_rev. rewrite blank_rev_onto. apply andb_true_r. Qed.

Lemma length_rev_onto (s acc : string) :
  String.length (Js.string_rev_onto s acc)
  = (String.length s + String.length acc)%nat.
Proof.
  revert acc. induction s as [|c s IH]; intros acc;
    cbn [Js.string_rev_onto String.length]; [reflexivity|].
  rewrite IH. cbn [String.length]. lia.
Qed.

Lemma rev_empty (s : string) : Js.string_rev s = "" -> s = "".
Proof.
  intros H. apply (f_equal String.length) in H.
  unfold Js.string_rev in H. rewrite length_rev_onto in H.
  destruct s; [reflexivity | discriminate H].
Qed.

Lemma truthy_false (s : string) : Js.truthy s = false <-> s = "".
Proof. destruct s; cbn; split; congruence. Qed.

(** [s.trim()] is empty exactly when [s] is blank. *)
Lemma trim_empty_iff_blank (s : string) :
  Js.truthy (Js.String_trim s) = false <-> JsString.blank s = true.
Proof.
  rewrite truthy_false. unfold Js.String_trim. split.
  - intros H. apply rev_empty, trim_start_blank in H.
    rewrite blank_rev in H.
    destruct (trim_start_head s) as [He|(c & t & He & Hc)].
    + apply trim_start_blank, He.
    + rewrite He in H. cbn [JsString.blank] in H. rewrite Hc in H.
      discriminate H.
  - intros H. apply trim_start_blank in H. rewrite H. reflexivity.
Qed.

Lemma trim_truthy_not_blank (s : string) :
  Js.truthy (Js.String_trim s) = true <-> JsString.blank s = false.
Proof.
  destruct (JsString.blank s) eqn:Hb.
  - apply trim_empty_iff_blank in Hb. rewrite Hb. split; discriminate.
  - destruct (Js.truthy (Js.String_trim s)) eqn:Ht; [tauto|].
    apply trim_empty_iff_blank in Ht. congruence.
Qed.

Lemma not_blank_nonempty (s : string) : JsString.blank s = false -> s <> "".
Proof. intros H ->. discriminate H. Qed.

End Blank.

(** X9. [handleAddFriend] also turns down white space: when the key or
    the alias typed is blank (empty, or white space only) the handler
    returns at its guard and the state is untouched. *)
Theorem addFriend_rejects_blank (st : AppState) :
  JsString.blank (friendIdInput st) = true
  \/ JsString.blank (friendAliasInput st) = true ->
  App.handleAddFriend st = st.
Proof.
  unfold App.handleAddFriend. intros [H|H]; apply trim_empty_iff_blank in H;
    rewrite H; cbn [negb]; [|rewrite orb_true_r]; reflexivity.
Qed.

Lemma addFriend_rejects_blank_witness :
  let st := run [TypeFriendId "PUBB"; TypeFriendAlias "  "]
              (mounted (Some alice)) in
  App.handleAddFriend st = st.
Proof.
  intros st. apply (addFriend_rejects_blank st). right. reflexivity.
Defined.

(** X10. A friend added while no session exists is lost without a sign:
    with two inputs that are not blank [handleAddFriend] writes nothing
    and adds no friend, yet clears both inputs and closes the dialog. *)
Theorem addFriend_without_session_is_lost (st : AppState) :
  gun_user_is st = None ->
  JsString.blank (friendIdInput st) = false ->
  JsString.blank (friendAliasInput st) = false ->
  let st' := App.handleAddFriend st in
  gun_writes st' = gun_writes st
  /\ friends st' = friends st
  /\ friendIdInput st' = "" /\ friendAliasInput st' = ""
  /\ showAddFriend st' = false.
Proof.
  intros Hno Hid Hal. apply trim_truthy_not_blank in Hid, Hal.
  unfold App.handleAddFriend, GunService.addFriend.
  rewrite Hid, Hal, Hno. cbn. auto.
Qed.

Lemma addFriend_without_session_is_lost_witness :
  let st := run [ShowAddFriend true; TypeFriendId "PUBB"; TypeFriendAlias "bob"]
              (mounted None) in
  showAddFriend st = true
  /\ gun_writes (App.handleAddFriend st) = []
  /\ friends (App.handleAddFriend st) = []
  /\ friendIdInput (App.handleAddFriend st) = ""
  /\ friendAliasInput (App.handleAddFriend st) = ""
  /\ showAddFriend (App.handleAddFriend st) = false.
Proof.
  intros st. split; [reflexivity|].
  apply (addFriend_without_session_is_lost st); reflexivity.
Defined.

(** X11. [ChatView] sends no blank text and nothing the receiver drops.
    A blank input is kept in the field and the parent's handler is not
    called; any other input is handed over as typed and the field is
    emptied; and every message write that a send from the global or from
    a private conversation adds carries the input, which passes the guard
    [data && data.msg] of the receiving callback. *)
Theorem chat_view_sends_only_text (input : string) (now : Z) (st : AppState) :
  (JsString.blank input = true ->
     AppView.sendFromGlobalChat input now st = (input, st)
     /\ AppView.sendFromPrivateChat input now st = (input, st))
  /\ (JsString.blank input = false ->
        AppView.sendFromGlobalChat input now st
        = ("", App.handleSendMessage input now st)
        /\ AppView.sendFromPrivateChat input now st
           = ("", App.handleSendPrivateMessage input now st))
  /\ forall path p,
       In (path, p)
         (message_writes (gun_writes (snd (AppView.sendFromGlobalChat input now st))))
       \/ In (path, p)
            (message_writes (gun_writes (snd (AppView.sendFromPrivateChat input now st)))) ->
       In (path, p) (message_writes (gun_writes st))
       \/ (p_msg p = input
           /\ App.accepted_text (Some (as_delivered p)) = Some input).
Proof.
  unfold AppView.sendFromGlobalChat, AppView.sendFromPrivateChat,
    ChatView.handleSend.
  split; [|split].
  - intros Hb. apply trim_empty_iff_blank in Hb. rewrite Hb. auto.
  - intros Hb. apply trim_truthy_not_blank in Hb. rewrite Hb. auto.
  - intros path p.
    destruct (Js.truthy (Js.String_trim input)) eqn:Ht; cbn [negb snd];
      [|tauto].
    apply trim_truthy_not_blank, not_blank_nonempty in Ht.
    unfold App.handleSendMessage, App.handleSendPrivateMessage.
    destruct (gun_user_is st) as [u|]; [|tauto].
    assert (Hw : forall path' p',
              p_msg p' = input ->
              In (path, p) (message_writes (gun_writes (emit (GunSet path' p') st))) ->
              In (path, p) (message_writes (gun_writes st))
              \/ (p_msg p = input
                  /\ App.accepted_text (Some (as_delivered p)) = Some input)).
    { intros path' p' Hp'. unfold emit, message_writes.
      cbn [gun_writes with_writes]. rewrite flat_map_app, in_app_iff.
      intros [Hin|[[= _ <-]|[]]]; [left; exact Hin|].
      right. split; [exact Hp'|].
      rewrite <- Hp'. apply accepted_as_delivered. congruence. }
    intros [Hin|Hin].
    + eapply Hw; [|exact Hin]. reflexivity.
    + destruct (selectedFriend st); [|left; exact Hin].
      eapply Hw; [|exact Hin]. reflexivity.
Qed.

Lemma chat_view_sends_only_text_witness :
  AppView.sendFromGlobalChat "   " 7 (mounted (Some alice))
  = ("   ", mounted (Some alice))
  /\ AppView.sendFromPrivateChat "   " 7 (mounted (Some alice))
     = ("   ", mounted (Some alice)).
Proof.
  apply (proj1 (chat_view_sends_only_text "   " 7 (mounted (Some alice)))).
  reflexivity.
Defined.

(** X12. What is sent to the global chat comes back as a message. With a
    session, [handleSendMessage] writes one payload to the global path,
    signed with the session's key and the current user name; arriving
    under a fresh id while the global callback is attached, a payload
    with a text puts that message in the list, and one with the empty
    text, written all the same, is dropped on arrival. *)
Theorem global_message_round_trip (u : Identity) (text id : string) (now : Z)
  (st : AppState) :
  gun_user_is st = Some u ->
  In OnGlobalChat (gun_listeners st) ->
  ~ has_id id (globalMessages st) ->
  let p := mkPayload text (currentUser st) (is_pub u) now in
  let st1 := App.handleSendMessage text now st in
  let st2 := deliver (EvGlobal (Some (as_delivered p)) id) st1 in
  gun_writes st1 = (gun_writes st ++ [GunSet GunService.globalChatPath p])%list
  /\ (text <> "" ->
        In (mkMessage id text (currentUser st) (is_pub u) (Some now))
          (globalMessages st2))
  /\ (text = "" -> st2 = st1).
Proof.
  intros Hu Hl Hnew p st1 st2.
  assert (Hst1 : st1 = emit (GunSet GunService.globalChatPath p) st).
  { unfold st1, App.handleSendMessage. rewrite Hu. reflexivity. }
  assert (Hd : st2 = on_room_event GlobalRoom (Some (as_delivered p)) id st1).
  { unfold st2.
    change (EvGlobal (Some (as_delivered p)) id)
      with (room_event GlobalRoom (Some (as_delivered p)) id).
    apply deliver_room_event_attached. rewrite Hst1. exact Hl. }
  split; [rewrite Hst1; reflexivity|]. split.
  - intros Htext. rewrite Hd.
    apply (in_room_after_accept GlobalRoom (as_delivered p) text id).
    + apply (accepted_as_delivered p). exact Htext.
    + rewrite Hst1. exact Hnew.
  - intros ->. rewrite Hd. apply on_room_event_rejected. reflexivity.
Qed.

Lemma global_message_round_trip_witness :
  let st := alice_signed_in in
  let p := mkPayload "hi" "alice" "PUBA" 7 in
  gun_writes (App.handleSendMessage "hi" 7 st)
  = [GunSet ["ma-mesh-global-chat-v1"] p]
  /\ ("hi" <> "" ->
        In (mkMessage "m1" "hi" "alice" "PUBA" (Some 7))
          (globalMessages
             (deliver (EvGlobal (Some (as_delivered p)) "m1")
                (App.handleSendMessage "hi" 7 st))))
  /\ ("hi" = "" ->
        deliver (EvGlobal (Some (as_delivered p)) "m1")
          (App.handleSendMessage "hi" 7 st)
        = App.handleSendMessage "hi" 7 st).
Proof.
  intros st p.
  apply (global_message_round_trip alice "hi" "m1" 7 st).
  - reflexivity.
  - right. left. reflexivity.
  - intros (m & [] & _).
Defined.

(** ** Without a session *)
Section Sessionless.

Import App GunService.

Lemma quiet_same (st0 st st' : AppState) :
  gun_user_is st' = gun_user_is st -> gun_writes st' = gun_writes st ->
  gun_listeners st' = gun_listeners st ->
  quiet st0 st -> quiet st0 st'.
Proof. unfold quiet. intros -> -> ->. auto. Qed.

Lemma run_listener_quiet (st0 : AppState) (l : Listener) (e : StoreEvent)
  (st : AppState) :
  quiet st0 st -> quiet st0 (run_listener l e st).
Proof.
  intros Hq. assert (Hno := proj1 Hq). revert Hq.
  destruct l, e; cbn [run_listener]; try exact (fun H => H);
    apply quiet_same.
  - unfold aliasListener. rewrite Hno.
    destruct alias; cbn; rewrite ?Hno; reflexivity.
  - unfold aliasListener. rewrite Hno. destruct alias; reflexivity.
  - unfold aliasListener. rewrite Hno. destruct alias; reflexivity.
  - unfold globalChatListener.
    destruct data; [destruct (accepted_text _)|]; reflexivity.
  - unfold globalChatListener.
    destruct data; [destruct (accepted_text _)|]; reflexivity.
  - unfold globalChatListener.
    destruct data; [destruct (accepted_text _)|]; reflexivity.
  - apply friendsHandler_user_is.
  - unfold friendsHandler. destruct data as [d|]; [|reflexivity].
    destruct (fd_status d =? "friend")%string; [|reflexivity].
    cbn [gun_user_is setFriends]. rewrite Hno. reflexivity.
  - unfold friendsHandler. destruct data as [d|]; [|reflexivity].
    destruct (fd_status d =? "friend")%string; [|reflexivity].
    cbn [gun_user_is setFriends]. rewrite Hno. reflexivity.
  - destruct (decide _); [|reflexivity]. unfold privateRoomListener.
    destruct msg; [destruct (accepted_text _)|]; reflexivity.
  - destruct (decide _); [|reflexivity]. unfold privateRoomListener.
    destruct msg; [destruct (accepted_text _)|]; reflexivity.
  - destruct (decide _); [|reflexivity]. unfold privateRoomListener.
    destruct msg; [destruct (accepted_text _)|]; reflexivity.
Qed.

Lemma deliver_quiet (st0 : AppState) (e : StoreEvent) (st : AppState) :
  quiet st0 st -> quiet st0 (deliver e st).
Proof.
  unfold deliver. generalize (gun_listeners st) as ls. intros ls. revert st.
  induction ls as [|l ls IH]; intros st Hq; cbn [foldl]; [exact Hq|].
  apply IH, run_listener_quiet, Hq.
Qed.

Lemma effect_quiet (st0 st : AppState) : quiet st0 st -> quiet st0 (effect st).
Proof.
  intros (Hno & Hw & more & Hl & Hm). unfold effect.
  cbn [gun_user_is attach with_listeners]. rewrite Hno.
  split; [exact Hno|]. split; [exact Hw|].
  exists (more ++ [OnAlias; OnGlobalChat])%list. cbn [gun_listeners with_listeners].
  split.
  - unfold attach. cbn [gun_listeners with_listeners].
    rewrite Hl, <- !app_assoc. reflexivity.
  - rewrite forallb_app, Hm. reflexivity.
Qed.

Lemma perform_quiet (st0 : AppState) (a : Action) (st : AppState) :
  (forall u, a <> ProviderAuth u) ->
  quiet st0 st -> quiet st0 (perform a st).
Proof.
  intros Hna Hq. assert (Hno := proj1 Hq). revert Hq.
  destruct a; cbn [perform]; try (apply quiet_same; reflexivity).
  - apply deliver_quiet.
  - destruct (Hna u eq_refl).
  - unfold handleSendMessage. rewrite Hno. exact (fun H => H).
  - unfold handleSendPrivateMessage. rewrite Hno. exact (fun H => H).
  - unfold handleAddFriend, addFriend. rewrite Hno.
    destruct (_ || _); [exact (fun H => H)|]. apply quiet_same; reflexivity.
  - intros (_ & Hw & Hl). split; [reflexivity|]. split; [exact Hw | exact Hl].
Qed.

Lemma run_quiet (st0 : AppState) (acts : list Action) (st : AppState) :
  no_provider_auth acts = true -> quiet st0 st -> quiet st0 (run acts st).
Proof.
  unfold run. revert st.
  induction acts as [|a acts IH]; intros st Hna Hq; cbn [foldl]; [exact Hq|].
  cbn [no_provider_auth forallb] in Hna. apply andb_prop in Hna as [Ha Hna].
  apply IH; [exact Hna|]. unfold step, commit, effect_cleanup.
  assert (Hq' : quiet st0 (perform a st)).
  { apply perform_quiet; [|exact Hq]. intros u ->. discriminate Ha. }
  destruct (Bool.eqb _ _); [exact Hq' | apply effect_quiet, Hq'].
Qed.

Lemma quiet_refl (st : AppState) : gun_user_is st = None -> quiet st st.
Proof.
  intros Hno. split; [exact Hno|]. split; [reflexivity|].
  exists []. split; [symmetry; apply app_nil_r | reflexivity].
Qed.

Lemma quiet_unfold (st0 st : AppState) :
  quiet st0 st ->
  gun_user_is st = None
  /\ gun_writes st = gun_writes st0
  /\ exists more, gun_listeners st = (gun_listeners st0 ++ more)%list
       /\ forallb sessionless_listener more = true.
Proof. exact (fun H => H). Qed.

End Sessionless.

(** X13. As long as the identity provider opens no session, a state
    without one stays without one whatever else happens (events, sends,
    adding friends, logout): nothing at all is written, and the only
    callbacks attached are alias and global-chat callbacks of the effect;
    no friend stream and no private room is subscribed. *)
Theorem nothing_written_without_session (acts : list Action) (st : AppState) :
  gun_user_is st = None ->
  no_provider_auth acts = true ->
  gun_user_is (run acts st) = None
  /\ gun_writes (run acts st) = gun_writes st
  /\ exists more, gun_listeners (run acts st) = (gun_listeners st ++ more)%list
       /\ forallb sessionless_listener more = true.
Proof.
  intros Hno Hna. apply (quiet_unfold st), run_quiet; [exact Hna|].
  apply quiet_refl, Hno.
Qed.

Lemma nothing_written_without_session_witness :
  let st := step Logout (step (SendGlobal "hi" 7) alice_signed_in) in
  let acts := [Deliver (EvAlias (Some "alice")); SendGlobal "again" 8;
               TypeFriendId "PUBB"; TypeFriendAlias "bob"; AddFriend;
               Deliver (EvFriend (Some bob_record) "PUBB")] in
  gun_user_is (run acts st) = None
  /\ gun_writes (run acts st) = gun_writes st
  /\ exists more, gun_listeners (run acts st) = (gun_listeners st ++ more)%list
       /\ forallb sessionless_listener more = true.
Proof.
  intros st acts.
  apply (nothing_written_without_session acts st); reflexivity.
Defined.

(** ** Mentions *)
Section Mentions.

Lemma starts_with_spec (needle s : string) :
  JsString.starts_with needle s = true <-> exists t, s = needle ++ t.
Proof.
  revert s. induction needle as [|a needle IH]; intros s;
    cbn [JsString.starts_with].
  - split; [eauto | reflexivity].
  - destruct s as [|b s].
    + split; [discriminate|]. intros [t Ht].
      rewrite append_cons in Ht. discriminate Ht.
    + rewrite andb_true_iff, IH. split.
      * intros [Hab [t ->]]. apply Ascii.eqb_eq in Hab. subst b.
        exists t. reflexivity.
      * intros [t Ht]. rewrite append_cons in Ht. injection Ht as -> ->.
        split; [apply Ascii.eqb_refl | eauto].
Qed.

Lemma String_includes_spec (needle s : string) :
  JsString.String_includes needle s = true
  <-> exists pre post, s = pre ++ needle ++ post.
Proof.
  induction s as [|c s IH]; cbn [JsString.String_includes];
    rewrite orb_true_iff, starts_with_spec.
  - split.
    + intros [[t Ht]|Hf]; [|discriminate Hf]. exists "", t. exact Ht.
    + intros (pre & post & H). left. destruct pre as [|c pre].
      * exists post. exact H.
      * rewrite append_cons in H. discriminate H.
  - rewrite IH. split.
    + intros [[t Ht]|(pre & post & ->)].
      * exists "", t. exact Ht.
      * exists (String c pre), post. reflexivity.
    + intros (pre & post & H). destruct pre as [|c' pre].
      * left. exists post. exact H.
      * right. rewrite append_cons in H. injection H as -> ->. eauto.
Qed.

Lemma string_app_assoc (a b c : string) : (a ++ b) ++ c = a ++ b ++ c.
Proof.
  induction a as [|x a IH]; [reflexivity|].
  rewrite !append_cons, IH. reflexivity.
Qed.

End Mentions.

(** X14. [isMention] is a plain substring test: a message mentions the
    user exactly when its text has ['@'] followed by the user name
    somewhere in it. *)
Theorem isMention_iff_substring (notif : Message) (currentUser : string) :
  ChatView.isMention notif currentUser = true
  <-> exists pre post, m_msg notif = pre ++ "@" ++ currentUser ++ post.
Proof.
  unfold ChatView.isMention. rewrite String_includes_spec.
  split; intros (pre & post & H); exists pre, post; rewrite H;
    rewrite ?string_app_assoc, ?append_cons, ?append_nil; reflexivity.
Qed.

(** X15. No word boundary is looked for: a message that mentions a user
    whose name begins with [currentUser] is shown as a mention of
    [currentUser] as well. *)
Theorem mention_of_longer_name (notif : Message) (currentUser rest : string) :
  ChatView.isMention notif (currentUser ++ rest) = true ->
  ChatView.isMention notif currentUser = true.
Proof.
  unfold ChatView.isMention. rewrite !String_includes_spec.
  intros (pre & post & H). exists pre, (rest ++ post). rewrite H.
  rewrite !append_cons, !append_nil, !string_app_assoc. reflexivity.
Qed.

Lemma mention_of_longer_name_witness :
  ChatView.isMention (mkMessage "m1" "hi @bobby" "alice" "PUBA" (Some 1)) "bob" = true.
Proof.
  apply (mention_of_longer_name (mkMessage "m1" "hi @bobby" "alice" "PUBA" (Some 1))
           "bob" "by").
  reflexivity.
Defined.

(** ** Signing in through the overlay *)
Section Overlay.

Import AuthOverlay.

Lemma rejection_truthy (err : option string) (e : string) :
  rejection err = Some e -> Js.truthy e = true.
Proof.
  unfold rejection. destruct err as [x|]; [|discriminate].
  destruct (Js.truthy x) eqn:Hx; [|discriminate]. intros [= <-]. exact Hx.
Qed.

Lemma error_text_rejection (err : option string) (e : string) :
  rejection err = Some e -> error_text e = e.
Proof. intros H. unfold error_text. rewrite (rejection_truthy _ _ H). reflexivity. Qed.

End Overlay.

(** X16. A registration the provider rejects stops there: [handleSubmit]
    in register mode does not go on to log in, whatever the provider would
    have answered; the state of [App] is untouched, the overlay shows the
    provider's reason and is no longer loading. *)
Theorem rejected_registration_stops (created : option string) (err : string)
  (answer : AuthOverlay.AuthAck) (ov : AuthOverlay.State) (st : AppState) :
  AuthOverlay.isLogin ov = false ->
  AuthOverlay.rejection created = Some err ->
  AuthOverlay.handleSubmit created answer ov st
  = (AuthOverlay.mkState false (AuthOverlay.username ov)
       (AuthOverlay.password ov) (AuthOverlay.showPassword ov) false err, st).
Proof.
  intros Hmode Hrej. unfold AuthOverlay.handleSubmit.
  rewrite Hmode, Hrej, (error_text_rejection _ _ Hrej). reflexivity.
Qed.

Lemma rejected_registration_stops_witness :
  let ov := AuthOverlay.mkState false "alice" "secret" false false "" in
  AuthOverlay.handleSubmit (Some "User already created!")
    (AuthOverlay.mkAuthAck None (Some alice)) ov (mounted None)
  = (AuthOverlay.mkState false "alice" "secret" false false
       "User already created!", mounted None).
Proof.
  intros ov.
  apply (rejected_registration_stops (Some "User already created!")
           "User already created!" (AuthOverlay.mkAuthAck None (Some alice))
           ov (mounted None)); reflexivity.
Defined.

(** X17. [handleSubmit] marks [App] authenticated exactly when no call
    it makes is rejected: the login in login mode, the registration and
    then the login in register mode. It always ends with the overlay not
    loading; on success the user name is the one typed, the session is the
    one the provider left, no error is shown, and [currentPub] is not
    touched. *)
Theorem submit_authenticates_iff_accepted (created : option string)
  (answer : AuthOverlay.AuthAck) (ov : AuthOverlay.State) (st : AppState) :
  isAuthenticated st = false ->
  let r := AuthOverlay.handleSubmit created answer ov st in
  AuthOverlay.loading (fst r) = false
  /\ (isAuthenticated (snd r) = true <->
      (AuthOverlay.isLogin ov = true \/ AuthOverlay.rejection created = None)
      /\ AuthOverlay.rejection (AuthOverlay.ack_err answer) = None)
  /\ (isAuthenticated (snd r) = true ->
      currentUser (snd r) = AuthOverlay.username ov
      /\ currentPub (snd r) = currentPub st
      /\ gun_user_is (snd r) = AuthOverlay.ack_is answer
      /\ AuthOverlay.error (fst r) = "").
Proof.
  intros Hst. unfold AuthOverlay.handleSubmit, AuthOverlay.login.
  destruct (AuthOverlay.isLogin ov);
    [|destruct (AuthOverlay.rejection created) as [e|]];
    try destruct (AuthOverlay.rejection (AuthOverlay.ack_err answer)) as [e'|];
    cbn; rewrite ?Hst; repeat split; intros; try tauto; try discriminate;
    intuition discriminate.
Qed.

Lemma submit_authenticates_iff_accepted_witness :
  let ov := AuthOverlay.mkState true "alice" "secret" false false "" in
  let r := AuthOverlay.handleSubmit None
             (AuthOverlay.mkAuthAck None (Some alice)) ov (mounted None) in
  isAuthenticated (snd r) = true
  /\ currentUser (snd r) = "alice" /\ currentPub (snd r) = ""
  /\ gun_user_is (snd r) = Some alice.
Proof.
  intros ov r.
  destruct (submit_authenticates_iff_accepted None
              (AuthOverlay.mkAuthAck None (Some alice)) ov (mounted None)
              eq_refl) as (_ & Hiff & Hthen).
  assert (Ha : isAuthenticated (snd r) = true).
  { apply Hiff. split; [left|]; reflexivity. }
  destruct (Hthen Ha) as (Hu & Hp & Hs & _).
  exact (conj Ha (conj Hu (conj Hp Hs))).
Defined.

(** X18. After a submit that succeeds from the signed-out state, the
    render runs the effect again: one more alias callback and one more
    global-chat callback are attached behind those there, and the friend
    stream is subscribed exactly when the provider left a session. *)
Theorem successful_submit_reruns_effect (created : option string)
  (answer : AuthOverlay.AuthAck) (ov : AuthOverlay.State) (st : AppState) :
  isAuthenticated st = false ->
  isAuthenticated (snd (AuthOverlay.handleSubmit created answer ov st)) = true ->
  gun_listeners (commit st (snd (AuthOverlay.handleSubmit created answer ov st)))
  = (gun_listeners st
     ++ [OnAlias; OnGlobalChat]
     ++ match AuthOverlay.ack_is answer with
        | Some _ => [OnFriends]
        | None => []
        end)%list.
Proof.
  intros Hst Hok. unfold commit. rewrite Hst, Hok. cbn [Bool.eqb].
  revert Hok. unfold AuthOverlay.handleSubmit, AuthOverlay.login.
  destruct (AuthOverlay.isLogin ov);
    [|destruct (AuthOverlay.rejection created) as [e|]];
    try destruct (AuthOverlay.rejection (AuthOverlay.ack_err answer)) as [e'|];
    cbn; rewrite ?Hst; try discriminate; intros _;
    destruct (AuthOverlay.ack_is answer); cbn;
    rewrite <- ?app_assoc; reflexivity.
Qed.

Lemma successful_submit_reruns_effect_witness :
  let ov := AuthOverlay.mkState true "alice" "secret" false false "" in
  let r := AuthOverlay.handleSubmit None
             (AuthOverlay.mkAuthAck None (Some alice)) ov (mounted None) in
  gun_listeners (commit (mounted None) (snd r))
  = [OnAlias; OnGlobalChat; OnAlias; OnGlobalChat; OnFriends].
Proof.
  intros ov r.
  apply (successful_submit_reruns_effect None
           (AuthOverlay.mkAuthAck None (Some alice)) ov (mounted None));
    reflexivity.
Defined.

(** ** What the conversation view shows *)
Section Shown.

Import App GunService.

Lemma aliasListener_accepts (u : Identity) (alias : string) (st : AppState) :
  gun_user_is st = Some u -> alias <> "" ->
  aliasListener (Some alias) st
  = setIsCheckingAuth false
      (setCurrentPub (is_pub u)
         (setCurrentUser alias (setIsAuthenticated true st))).
Proof.
  intros Hu Ha. unfold aliasListener. rewrite Hu.
  destruct alias; [congruence | reflexivity].
Qed.

Lemma friendsHandler_currentPub (data : option FriendData) (id : string)
  (st : AppState) :
  currentPub (friendsHandler data id st) = currentPub st.
Proof.
  unfold friendsHandler. destruct data as [d|]; [|reflexivity].
  destruct (fd_status d =? "friend")%string; [|reflexivity].
  cbn [gun_user_is setFriends]. destruct (gun_user_is st); reflexivity.
Qed.

Lemma on_room_event_currentPub (r : Room) (data : option MessageData)
  (key : string) (st : AppState) :
  currentPub (on_room_event r data key st) = currentPub st.
Proof.
  destruct r; cbn [on_room_event];
    unfold globalChatListener, privateRoomListener;
    (destruct data; [destruct (accepted_text _)|]); reflexivity.
Qed.

End Shown.

(** X19. The conversation shown is the one subscribed. Once the alias
    callback has run for a live session with an alias that is not empty,
    [currentPub] is the session's key; after the friend event for a
    friend, a message with a text arriving under a fresh id on the room of
    the session and that friend is in the list [App] hands to the
    [ChatView] of that friend. *)
Theorem shown_chat_receives (u : Identity) (alias : string) (f : Friend)
  (d : FriendData) (msg : MessageData) (text id : string) (st : AppState) :
  gun_user_is st = Some u -> alias <> "" -> fd_status d = "friend" ->
  App.accepted_text (Some msg) = Some text ->
  let st1 := App.aliasListener (Some alias) st in
  let st2 := App.friendsHandler (Some d) (f_pub f) st1 in
  let room := GunService.getPrivateRoomId (is_pub u) (f_pub f) in
  ~ has_id id (AppView.privateChatShown f st2) ->
  currentPub st2 = is_pub u
  /\ In (mkMessage id text (md_user msg) (md_pub msg) (md_time msg))
       (AppView.privateChatShown f
          (deliver (EvPrivate room (Some msg) id) st2)).
Proof.
  intros Hu Ha Hs Hacc st1 st2 room Hnew.
  assert (Hst1 : st1 = setIsCheckingAuth false (setCurrentPub (is_pub u)
                   (setCurrentUser alias (setIsAuthenticated true st))))
    by (apply aliasListener_accepts; assumption).
  assert (Hpub : currentPub st2 = is_pub u).
  { unfold st2. rewrite friendsHandler_currentPub, Hst1. reflexivity. }
  assert (Hl : In (OnPrivateRoom room) (gun_listeners st2)).
  { unfold st2. rewrite (friendsHandler_attaches u);
      [apply in_app_iff; right; left; reflexivity | rewrite Hst1; exact Hu
      | exact Hs]. }
  split; [exact Hpub|].
  change (EvPrivate room (Some msg) id)
    with (room_event (PrivateRoom room) (Some msg) id).
  rewrite (deliver_room_event_attached (PrivateRoom room)) by exact Hl.
  unfold AppView.privateChatShown in *.
  rewrite on_room_event_currentPub, Hpub. rewrite Hpub in Hnew.
  apply (in_room_after_accept (PrivateRoom room) msg text id st2 Hacc Hnew).
Qed.

Lemma shown_chat_receives_witness :
  let bob := mkFriend "PUBB" "bob" "friend" None in
  let st2 := App.friendsHandler (Some bob_record) "PUBB"
               (App.aliasListener (Some "alice") (mounted (Some alice))) in
  currentPub st2 = "PUBA"
  /\ In (mkMessage "m1" "hello" "alice" "PUBA" (Some 1000))
       (AppView.privateChatShown bob
          (deliver (EvPrivate "PUBA_PUBB" (Some hello) "m1") st2)).
Proof.
  intros bob st2.
  apply (shown_chat_receives alice "alice" bob bob_record hello "hello" "m1"
           (mounted (Some alice))); try reflexivity.
  - discriminate.
  - intros (m & Hin & _). vm_compute in Hin. exact Hin.
Defined.

(** ** More on the resolver and the two ways to send *)
Section ResolverShape.

Lemma length_string_app (s t : string) :
  String.length (s ++ t) = (String.length s + String.length t)%nat.
Proof.
  induction s as [|c s IH]; [reflexivity|].
  rewrite append_cons. cbn [String.length]. rewrite IH. reflexivity.
Qed.

Lemma compare_flip_not_Gt (a b : string) :
  String.compare a b = Gt -> String.compare b a <> Gt.
Proof.
  intros H. rewrite String.compare_antisym, H. discriminate.
Qed.

End ResolverShape.

(** X20. A room id is the two keys in ascending code-unit order with one
    ['_'] between them; its length is the sum of theirs plus one. *)
Theorem room_id_is_ordered_pair (a b : string) :
  (exists lo hi,
     ((lo = a /\ hi = b) \/ (lo = b /\ hi = a))
     /\ String.compare lo hi <> Gt
     /\ GunService.getPrivateRoomId a b = lo ++ "_" ++ hi)
  /\ String.length (GunService.getPrivateRoomId a b)
     = (String.length a + String.length b + 1)%nat.
Proof.
  rewrite getPrivateRoomId_unfold.
  destruct (String.compare a b) eqn:Hc.
  - split; [exists a, b; rewrite Hc; intuition discriminate|].
    rewrite !length_string_app. cbn [String.length]. lia.
  - split; [exists a, b; rewrite Hc; intuition discriminate|].
    rewrite !length_string_app. cbn [String.length]. lia.
  - split.
    + exists b, a. split; [tauto|]. split; [|reflexivity].
      apply compare_flip_not_Gt, Hc.
    + rewrite !length_string_app. cbn [String.length]. lia.
Qed.

(** X21. The service functions and the handlers of [App] send the same
    thing once [currentUser] is the alias of the session: [sendMessage]
    does what [handleSendMessage] does, and [sendPrivateMessage] to the
    selected friend what [handleSendPrivateMessage] does. *)
Theorem service_send_agrees_with_handler (text : string) (now : Z)
  (st : AppState) :
  (forall u, gun_user_is st = Some u -> currentUser st = is_alias u) ->
  GunService.sendMessage text now st = App.handleSendMessage text now st
  /\ forall f, selectedFriend st = Some f ->
       GunService.sendPrivateMessage (f_pub f) text now st
       = App.handleSendPrivateMessage text now st.
Proof.
  intros Hcur.
  unfold GunService.sendMessage, GunService.sendPrivateMessage,
    App.handleSendMessage, App.handleSendPrivateMessage.
  destruct (gun_user_is st) as [u|]; [|split; [|intros f _]; reflexivity].
  rewrite (Hcur u eq_refl). split; [|intros f ->]; reflexivity.
Qed.

Lemma service_send_agrees_with_handler_witness :
  GunService.sendMessage "hi" 7 alice_signed_in
  = App.handleSendMessage "hi" 7 alice_signed_in.
Proof.
  refine (proj1 (service_send_agrees_with_handler "hi" 7 alice_signed_in _)).
  intros u [= <-]. reflexivity.
Defined.

(** X22. A friend event handled while no session exists registers the
    friend but subscribes to nothing: a new key gets its entry, and no
    callback is attached for its room. *)
Theorem friend_without_session_not_subscribed (d : FriendData) (id : string)
  (st : AppState) :
  gun_user_is st = None -> fd_status d = "friend" ->
  ~ In id (map f_pub (friends st)) ->
  friends (App.friendsHandler (Some d) id st)
  = (friends st ++ [mkFriend id (fd_alias d) "friend" (fd_online d)])%list
  /\ gun_listeners (App.friendsHandler (Some d) id st) = gun_listeners st.
Proof.
  intros Hno Hs Hnew. split.
  - rewrite friendsHandler_new_entry by assumption.
    unfold App.friend_of. rewrite Hs. reflexivity.
  - unfold App.friendsHandler. rewrite Hs, String.eqb_refl.
    cbn [gun_user_is setFriends]. rewrite Hno. reflexivity.
Qed.

Lemma friend_without_session_not_subscribed_witness :
  let st := step Logout alice_signed_in in
  friends (App.friendsHandler (Some bob_record) "PUBB" st)
  = [mkFriend "PUBB" "bob" "friend" None]
  /\ gun_listeners (App.friendsHandler (Some bob_record) "PUBB" st)
     = gun_listeners st.
Proof.
  intros st.
  apply (friend_without_session_not_subscribed bob_record "PUBB" st);
    try reflexivity.
  intros [].
Defined.
